(** * api_yamdb: permissions, serializer validators and the Title filter

    A shallow embedding of [api/v1/permissions.py], [api/serializers.py]
    and [api/filters.py], followed by the properties the specification
    states about them.

    Python integers are unbounded: they are [Z].  Python [str] is
    [string].  A [dict] with string keys is a [gmap string _].  Tables of
    the relational store are lists of records, in row order. *)

From Stdlib Require Import ZArith String Ascii List Lia.
From Stdlib Require Import DecimalString DecimalZ.
From stdpp Require Import base option list gmap strings.

Local Open Scope Z_scope.
Local Open Scope string_scope.

(** ** The data model ([users.models], [reviews.models]) *)

Module Models.

(** Modelled from the spec: [users.models.User] is not part of the
    excerpt.  Section 6 of the specification describes the identity
    carried by a request as an object with [is_authenticated], the
    role-derived predicates [is_admin] and [is_moderator], and
    [is_superuser]; section 3 gives it a unique username and an email.
    The anonymous identity has no primary key. *)
Record User := mkUser {
  user_pk : option Z;
  username : string;
  email : string;
  is_authenticated : bool;
  is_superuser : bool;
  is_admin : bool;
  is_moderator : bool
}.

(** [a == b] on two model instances: same primary key, and an instance
    that was never saved is equal to no other instance. *)
Definition User_eq (a b : User) : bool :=
  match user_pk a, user_pk b with
  | Some x, Some y => bool_decide (x = y)
  | _, _ => false
  end.

(** Modelled from the spec: [reviews.models] is not part of the excerpt.
    The columns are those of section 3 and of the serializers' [Meta]
    classes. *)
Record Category := mkCategory {
  category_name : string;
  category_slug : string
}.

Record Genre := mkGenre {
  genre_name : string;
  genre_slug : string
}.

Record Title := mkTitle {
  title_pk : Z;
  title_name : string;
  title_year : Z;
  title_description : option string;
  title_category : option Category;
  title_genre : list Genre
}.

Record Review := mkReview {
  review_pk : Z;
  review_title : Z;       (* foreign key: primary key of the Title *)
  review_author : Z;      (* foreign key: primary key of the User *)
  review_text : string;
  review_score : Z
}.

(** Anything that carries an [author] attribute (a Review or a
    Comment), as seen by an object-level permission. *)
Record Authored := mkAuthored {
  author : User
}.

(** The tables behind [User.objects], [Category.objects],
    [Title.objects] and [Review.objects]. *)
Record DB := mkDB {
  User_objects : list User;
  Category_objects : list Category;
  Title_objects : list Title;
  Review_objects : list Review
}.

End Models.

(** ** Requests *)

Module Http.
Import Models.

Record Request := mkRequest {
  method : string;
  user : User
}.

(** [view.kwargs]: the identifiers captured from the path. *)
Record View := mkView {
  kwargs : gmap string Z
}.

(** [rest_framework.permissions.SAFE_METHODS] *)
Definition SAFE_METHODS : list string := ["GET"; "HEAD"; "OPTIONS"].

(** [x in xs] on a tuple of strings. *)
Definition str_in (x : string) (xs : list string) : bool :=
  existsb (String.eqb x) xs.

End Http.

(** ** [api/v1/permissions.py] *)

Module Permissions.
Import Models Http.

Module AdministratorEdit.
Definition has_permission (request : Request) (view : View) : bool :=
  is_authenticated (user request)
  && (is_admin (user request) || is_superuser (user request)).
End AdministratorEdit.

Module IsAdminOrReadOnly.
Definition has_permission (request : Request) (view : View) : bool :=
  str_in (method request) SAFE_METHODS
  || (is_authenticated (user request)
      && (is_admin (user request) || is_superuser (user request))).
End IsAdminOrReadOnly.

Module IsAdminOrModeratirOrAuthor.
Definition has_permission (request : Request) (view : View) : bool :=
  str_in (method request) SAFE_METHODS
  || is_authenticated (user request).

Definition has_object_permission
    (request : Request) (view : View) (obj : Authored) : bool :=
  str_in (method request) SAFE_METHODS
  || is_superuser (user request)
  || is_admin (user request)
  || is_moderator (user request)
  || User_eq (user request) (author obj).
End IsAdminOrModeratirOrAuthor.

End Permissions.

(** ** Exceptions and store queries *)

Module Effects.
Import Models.

(** The exceptions the validators raise.  [serializers.py] binds the
    bare name [ValidationError] to [django.core.exceptions.ValidationError]
    (line 5) and reaches the framework's own class as
    [serializers.ValidationError]; [get_object_or_404] raises [Http404]. *)
Inductive exc :=
| serializers_ValidationError (detail : string)
| ValidationError (detail : string)
| Http404.

(** The queries a validator sends to the store, in the order sent. *)
Inductive query :=
| User_by_username (v : option string)
| User_by_email (v : option string)
| Category_by_slug (v : string)
| Title_by_pk (pk : option Z)
| Review_by_title_author (title : Z) (author : option Z).

(** A computation either raises or returns, and leaves the list of the
    queries it has sent so far. *)
Definition M (A : Type) : Type := (exc + A) * list query.

Definition ret {A} (a : A) : M A := (inr a, []).
Definition raise {A} (e : exc) : M A := (inl e, []).
Definition bind {A B} (m : M A) (k : A → M B) : M B :=
  match m with
  | (inl e, qs) => (inl e, qs)
  | (inr a, qs) => let '(r, qs') := k a in (r, (qs ++ qs')%list)
  end.
Definition sent {A} (q : query) (answer : A) : M A := (inr answer, [q]).

Definition outcome {A} (m : M A) : exc + A := fst m.
Definition queries {A} (m : M A) : list query := snd m.

(** [if cond: raise e] *)
Definition raise_if (cond : bool) (e : exc) : M unit :=
  if cond then raise e else ret tt.

(** Sequencing is written [x ← m; k] and [m;; k]. *)
#[export] Instance M_ret : MRet M := @ret.
#[export] Instance M_bind : MBind M := λ A B k m, bind m k.

(** *** The object managers *)

(** [qs.exists()], and the truth value of an evaluated queryset. *)
Definition exists_ {A} (rows : list A) : bool :=
  match rows with
  | [] => false
  | _ :: _ => true
  end.

(** [User.objects.filter(username=v)], evaluated. *)
Definition User_filter_username (db : DB) (v : option string) : M (list User) :=
  sent (User_by_username v)
       (filter (λ u, Some (username u) = v) (User_objects db)).

(** [User.objects.filter(email=v)], evaluated. *)
Definition User_filter_email (db : DB) (v : option string) : M (list User) :=
  sent (User_by_email v)
       (filter (λ u, Some (email u) = v) (User_objects db)).

(** [Category.objects.filter(slug=v).exists()] *)
Definition Category_filter_slug_exists (db : DB) (v : string) : M bool :=
  sent (Category_by_slug v)
       (exists_ (filter (λ c, category_slug c = v) (Category_objects db))).

(** [get_object_or_404(Title, pk=pk)] *)
Definition get_Title_or_404 (db : DB) (pk : option Z) : M Title :=
  found ← sent (Title_by_pk pk)
               (head (filter (λ t, Some (title_pk t) = pk) (Title_objects db)));
  match found with
  | Some t => ret t
  | None => raise Http404
  end.

(** [Review.objects.filter(title=title, author=author).exists()] *)
Definition Review_filter_exists (db : DB) (title : Title) (author : User) : M bool :=
  sent (Review_by_title_author (title_pk title) (user_pk author))
       (exists_
          (filter (λ r, review_title r = title_pk title
                        ∧ Some (review_author r) = user_pk author)
                  (Review_objects db))).

End Effects.

(** ** [api/serializers.py] *)

Module Serializers.
Import Models Http Effects.

(** [self.context] *)
Record Context := mkContext {
  request : Request;
  view : View
}.

(** The part of a serializer object the validators can reach: the
    instance being updated ([None] on create) and the context. *)
Record Serializer (Obj : Type) := mkSerializer {
  instance : option Obj;
  context : Context
}.
Arguments mkSerializer {Obj} _ _.
Arguments instance {Obj} _.
Arguments context {Obj} _.

Module CreateUserSerializer.
Definition validate (db : DB) (self : Serializer User)
    (data : gmap string string) : M (gmap string string) :=
  raise_if (bool_decide (data !! "username" = Some "me"))
    (serializers_ValidationError "Использовать имя me запрещено");;
  by_username ← User_filter_username db (data !! "username");
  raise_if (exists_ by_username)
    (serializers_ValidationError "Такой пользователь существует");;
  by_email ← User_filter_email db (data !! "email");
  raise_if (exists_ by_email)
    (serializers_ValidationError "Пользователь с таким email существует");;
  mret data.
End CreateUserSerializer.

Module CategorySerializer.
(** [slug = serializers.SlugField(max_length=50, min_length=None,
    allow_blank=False)]: the two constraints the declaration states. *)
Definition slug_max_length : nat := 50.
Definition slug_field_accepts (value : string) : bool :=
  negb (String.eqb value "") && (String.length value <=? slug_max_length)%nat.

Definition validate_slug (db : DB) (self : Serializer Category)
    (value : string) : M string :=
  taken ← Category_filter_slug_exists db value;
  raise_if taken
    (serializers_ValidationError "Категория с таким slug уже существует!");;
  mret value.
End CategorySerializer.

Module TitleWriteSerializer.
(** [now_year] is [dt.datetime.now().year], read when the validator
    runs. *)
Definition validate_year (now_year : Z) (self : Serializer Title)
    (value : Z) : M Z :=
  raise_if (value >? now_year)
    (serializers_ValidationError "Значение года не может быть больше текущего");;
  mret value.
End TitleWriteSerializer.

Module ReviewSerializer.
(** The chained comparison [0 > value > 10] is
    [0 > value and value > 10]. *)
Definition validate_score (self : Serializer Review) (value : Z) : M Z :=
  raise_if ((0 >? value) && (value >? 10))
    (serializers_ValidationError "Оценка по 10-бальной шкале!");;
  mret value.

(** [and] evaluates its right operand only when the left one holds,
    so the Review table is queried on POST only. *)
Definition validate {V} (db : DB) (self : Serializer Review)
    (data : gmap string V) : M (gmap string V) :=
  let request := request (context self) in
  let author := user request in
  let title_id := kwargs (view (context self)) !! "title_id" in
  title ← get_Title_or_404 db title_id;
  duplicate ← (if String.eqb (method request) "POST"
               then Review_filter_exists db title author
               else mret false);
  raise_if duplicate
    (ValidationError "Больше одного отзыва на title писать нельзя");;
  mret data.
End ReviewSerializer.

End Serializers.

(** ** [api/filters.py] *)

Module Filters.
Import Models.

(** *** Querysets of Titles *)

(** A column value, as a lookup compares it. *)
Inductive cell :=
| Str (s : string)
| Num (n : Z).

(** The values a lookup path reaches from one Title row: one per row of
    the join ([category] is a nullable foreign key, [genre] a
    many-to-many relation, [description] a nullable column).  A path
    that names no column does not resolve. *)
Definition Title_path (path : string) : option (Title → list cell) :=
  if String.eqb path "name" then
    Some (λ t, [Str (title_name t)])
  else if String.eqb path "year" then
    Some (λ t, [Num (title_year t)])
  else if String.eqb path "description" then
    Some (λ t, option_list (Str <$> title_description t))
  else if String.eqb path "category__slug" then
    Some (λ t, option_list (Str ∘ category_slug <$> title_category t))
  else if String.eqb path "genre__slug" then
    Some (λ t, Str ∘ genre_slug <$> title_genre t)
  else None.

Definition lower (c : ascii) : ascii :=
  let n := N_of_ascii c in
  if ((65 <=? n) && (n <=? 90))%N then ascii_of_N (n + 32) else c.

Fixpoint lower_string (s : string) : string :=
  match s with
  | EmptyString => EmptyString
  | String c s' => String (lower c) (lower_string s')
  end.

Fixpoint startswith (s p : string) : bool :=
  match p, s with
  | EmptyString, _ => true
  | String _ _, EmptyString => false
  | String a p', String b s' => Ascii.eqb a b && startswith s' p'
  end.

(** [sub in s] *)
Fixpoint contains (s sub : string) : bool :=
  startswith s sub
  || match s with
     | EmptyString => false
     | String _ s' => contains s' sub
     end.

Inductive lookup :=
| exact
| icontains.

(** Does the column value [field] satisfy [field__lookup=value]? *)
Definition lookup_holds (l : lookup) (value field : cell) : bool :=
  match l, value, field with
  | exact, Str v, Str f => String.eqb f v
  | exact, Num v, Num f => Z.eqb f v
  | icontains, Str v, Str f => contains (lower_string f) (lower_string v)
  | _, _, _ => false
  end.

(** [qs.filter(path__lookup=value)] with the path resolved: a
    Title is returned once for every joined row that matches. *)
Definition QuerySet_filter (values : Title → list cell) (l : lookup)
    (value : cell) (qs : list Title) : list Title :=
  flat_map (λ t, (λ _, t) <$> List.filter (lookup_holds l value) (values t)) qs.

(** *** Filters *)

Inductive filter_class :=
| CharFilter
| NumberFilter.

Record Filter := mkFilter {
  class : filter_class;
  field_name : string;
  lookup_expr : lookup
}.

Inductive failure :=
| Invalid (param : string)      (* the form rejected a parameter *)
| FieldError (path : string).   (* the lookup path does not resolve *)

(** The number a [NumberFilter] reads from the text of a parameter.
    Only integer literals are modelled; any other text is rejected. *)
Definition to_number (s : string) : option Z :=
  Z.of_int <$> NilZero.int_of_string s.

(** The form field of a filter turns the text of its parameter into
    the value to look up; an absent or empty parameter gives the empty
    value [None].  The outer [None] is a rejected parameter.  The text
    is taken as the form field leaves it, without surrounding blanks. *)
Definition clean (c : filter_class) (raw : option string) : option (option cell) :=
  match raw with
  | None => Some None
  | Some s =>
      if String.eqb s "" then Some None
      else match c with
           | CharFilter => Some (Some (Str s))
           | NumberFilter => (λ n, Some (Num n)) <$> to_number s
           end
  end.

(** [Filter.filter(qs, value)]: an empty value leaves the queryset as
    it is. *)
Definition Filter_filter (f : Filter) (qs : list Title) (value : option cell)
    : failure + list Title :=
  match value with
  | None => inr qs
  | Some v =>
      match Title_path (field_name f) with
      | None => inl (FieldError (field_name f))
      | Some values => inr (QuerySet_filter values (lookup_expr f) v qs)
      end
  end.

(** *** Filter sets *)

(** The kinds of model field the generation of filters tells apart. *)
Inductive db_field :=
| AutoField
| CharField
| TextField
| IntegerField
| ForeignKey
| ManyToManyField.

(** The default filter of a model field: a text column is matched as
    text and a number column as a number, both with [exact].  A relation
    has a choice filter, which is left out here: [TitleFilter] declares
    its own filter under the name of each relation of [Title]. *)
Definition filter_for_field (kind : db_field) (name : string) : option Filter :=
  match kind with
  | CharField | TextField => Some (mkFilter CharFilter name exact)
  | AutoField | IntegerField => Some (mkFilter NumberFilter name exact)
  | ForeignKey | ManyToManyField => None
  end.

Definition is_auto (kind : db_field) : bool :=
  match kind with
  | AutoField => true
  | _ => false
  end.

(** [fields = '__all__'] stands for every field of the model but the
    automatic primary key. *)
Definition get_all_model_fields (meta : list (string * db_field))
    : list (string * db_field) :=
  List.filter (λ f, negb (is_auto (snd f))) meta.

Definition declared_filter (declared : list (string * Filter)) (name : string)
    : option Filter :=
  snd <$> List.find (λ d, String.eqb (fst d) name) declared.

(** The filters of a filter set whose [Meta.fields] is ['__all__']: for
    every model field the declared filter of that name if there is one,
    and the default filter of the field otherwise; then the declared
    filters that name no model field. *)
Definition get_filters (meta : list (string * db_field))
    (declared : list (string * Filter)) : list (string * Filter) :=
  let of_fields :=
    omap (λ f, match declared_filter declared (fst f) with
               | Some d => Some (fst f, d)
               | None => pair (fst f) <$> filter_for_field (snd f) (fst f)
               end)
         (get_all_model_fields meta) in
  let rest :=
    List.filter (λ d, negb (existsb (λ f, String.eqb (fst f) (fst d)) of_fields))
                declared in
  (of_fields ++ rest)%list.

(** The form of the filter set cleans the parameter of every filter;
    parameters that name no filter are never read. *)
Fixpoint full_clean (filters : list (string * Filter)) (data : gmap string string)
    : failure + list (Filter * option cell) :=
  match filters with
  | [] => inr []
  | (name, f) :: filters' =>
      match clean (class f) (data !! name) with
      | None => inl (Invalid name)
      | Some v =>
          match full_clean filters' data with
          | inl e => inl e
          | inr vs => inr ((f, v) :: vs)
          end
      end
  end.

(** [for name, value in cleaned_data.items():
       queryset = self.filters[name].filter(queryset, value)] *)
Fixpoint filter_queryset (cleaned_data : list (Filter * option cell))
    (queryset : list Title) : failure + list Title :=
  match cleaned_data with
  | [] => inr queryset
  | (f, v) :: rest =>
      match Filter_filter f queryset v with
      | inl e => inl e
      | inr queryset' => filter_queryset rest queryset'
      end
  end.

(** [FilterSet(data, queryset).qs], for a request whose parameters are
    [data]. *)
Definition FilterSet_qs (filters : list (string * Filter))
    (data : gmap string string) (queryset : list Title) : failure + list Title :=
  match full_clean filters data with
  | inl e => inl e
  | inr cleaned_data => filter_queryset cleaned_data queryset
  end.

(** *** [TitleFilter] *)

Module TitleFilter.
Definition category : Filter := mkFilter CharFilter "category__slug" exact.
Definition genre : Filter := mkFilter CharFilter "genre__slug" exact.
Definition name : Filter := mkFilter CharFilter "name" icontains.
Definition year : Filter := mkFilter NumberFilter "year" exact.

Definition declared_filters : list (string * Filter) :=
  [("category", category); ("genre", genre); ("name", name); ("year", year)].

(** Modelled from the spec: the fields of [reviews.models.Title],
    which is not part of the excerpt (section 3, and the fields
    [TitleReadSerializer] lists). *)
Definition Title_meta : list (string * db_field) :=
  [("id", AutoField); ("name", CharField); ("year", IntegerField);
   ("description", TextField); ("category", ForeignKey);
   ("genre", ManyToManyField)].

(** [class Meta: model = Title; fields = '__all__'] *)
Definition filters : list (string * Filter) :=
  get_filters Title_meta declared_filters.

Definition qs (data : gmap string string) (queryset : list Title)
    : failure + list Title :=
  FilterSet_qs filters data queryset.
End TitleFilter.

End Filters.

(** ** Vocabulary of the specification *)

Module Spec.
Import Models Http Effects Serializers Filters.

(** What a validator reads from the context of its serializer: the
    Title identifier of the path, the sender of the request, and
    whether the request creates a record. *)
Definition path_title_id {Obj} (self : Serializer Obj) : option Z :=
  kwargs (view (context self)) !! "title_id".
Definition requester {Obj} (self : Serializer Obj) : User :=
  user (request (context self)).
Definition is_create {Obj} (self : Serializer Obj) : Prop :=
  method (request (context self)) = "POST".

(** A Category with this slug is in the store. *)
Definition slug_taken (db : DB) (slug : string) : Prop :=
  ∃ c, In c (Category_objects db) ∧ category_slug c = slug.

(** A User with this username, or with this email, is in the store. *)
Definition username_taken (db : DB) (v : option string) : Prop :=
  ∃ u, In u (User_objects db) ∧ Some (username u) = v.
Definition email_taken (db : DB) (v : option string) : Prop :=
  ∃ u, In u (User_objects db) ∧ Some (email u) = v.

(** The store holds a Review of the Title [title] written by [who]. *)
Definition reviewed_by (db : DB) (title : Z) (who : User) : Prop :=
  ∃ r, In r (Review_objects db)
       ∧ review_title r = title ∧ Some (review_author r) = user_pk who.

(** The store holds a Title with this primary key. *)
Definition title_exists (db : DB) (pk : option Z) : Prop :=
  ∃ t, In t (Title_objects db) ∧ Some (title_pk t) = pk.

(** The requester is the author of the object. *)
Definition is_author (who : User) (obj : Authored) : Prop :=
  ∃ pk, user_pk who = Some pk ∧ user_pk (author obj) = Some pk.

Definition safe_method (request : Request) : Prop :=
  In (method request) SAFE_METHODS.

(** *** Query parameters of the Title search *)

(** The parameters of a request, cut down to those with one of the
    given names. *)
Definition only (names : list string) (data : gmap string string)
    : gmap string string :=
  filter (λ kv, kv.1 ∈ names) data.


Definition param (name : string) (value : option string)
    (data : gmap string string) : gmap string string :=
  match value with
  | Some v => <[name := v]> data
  | None => data
  end.


(** A text parameter counts as supplied when it is present and not
    empty. *)
Definition supplied (p : option string) (v : string) : Prop :=
  p = Some v ∧ v ≠ "".

Definition in_category (slug : string) (t : Title) : Prop :=
  ∃ c, title_category t = Some c ∧ category_slug c = slug.

Definition has_genre (slug : string) (t : Title) : Prop :=
  ∃ g, In g (title_genre t) ∧ genre_slug g = slug.

(** [text] occurs in the name of the Title, letter case aside. *)
Definition name_contains (text : string) (t : Title) : Prop :=
  ∃ before after,
    lower_string (title_name t) = before ++ lower_string text ++ after.

(** The Title has a joined row that the lookup of the filter accepts
    for the value [v]. *)
Definition passes (f : Filter) (v : cell) (t : Title) : Prop :=
  ∃ values c,
    Title_path (field_name f) = Some values
    ∧ In c (values t) ∧ lookup_holds (lookup_expr f) v c = true.

(** The Title passes the filter for a cleaned value; an empty value
    asks nothing. *)
Definition accepts (fv : Filter * option cell) (t : Title) : Prop :=
  match fv.2 with
  | None => True
  | Some v => passes fv.1 v t
  end.

(** The filter generated for the [description] column. *)
Definition description_filter : Filter :=
  mkFilter CharFilter "description" exact.

(** The two Titles of the filter scenario. *)
Definition movie : Category := mkCategory "Movie" "movie".
Definition title_A : Title :=
  mkTitle 1 "A" 2000 None (Some movie) [mkGenre "Drama" "drama"].
Definition title_B : Title :=
  mkTitle 2 "B" 2010 None (Some movie) [mkGenre "Comedy" "comedy"].

End Spec.

(** ** A small store and a few requests *)

Module Examples.
Import Models Http Effects Serializers Spec.

Definition plain_user (pk : Z) (name : string) : User :=
  mkUser (Some pk) name (name ++ "@example.org") true false false false.
Definition ann : User := plain_user 7 "ann".
Definition bob : User := plain_user 8 "bob".
Definition root : User :=
  mkUser (Some 1) "root" "root@example.org" true true false false.
Definition anonymous : User := mkUser None "" "" false false false false.

(** Ann has reviewed Title A; nobody has reviewed Title B. *)
Definition store : DB :=
  mkDB [root; ann; bob] [movie] [title_A; title_B]
       [mkReview 1 (title_pk title_A) 7 "a classic" 9].

Definition review_of_ann : Authored := mkAuthored ann.

(** A Review serializer for a request of [who] on the Reviews of the
    Title [title]. *)
Definition review_serializer (verb : string) (who : User) (title : Z)
    : Serializer Review :=
  mkSerializer None
    (mkContext (mkRequest verb who) (mkView {[ "title_id" := title ]})).

(** A Category serializer that updates the record [own]. *)
Definition category_update (own : Category) : Serializer Category :=
  mkSerializer (Some own)
    (mkContext (mkRequest "PATCH" root) (mkView ∅)).

Definition title_create : Serializer Title :=
  mkSerializer None (mkContext (mkRequest "POST" root) (mkView ∅)).

Definition review_data : gmap string Z := {[ "score" := 8 ]}.

End Examples.

(** ** Relation fields of [TitleWriteSerializer] *)

Module RelatedFields.
Import Models.

(** What [to_internal_value] of a slug relation comes to: the object, the
    validation failure [does_not_exist], or the error of [queryset.get]
    when several rows carry the slug. *)
Inductive resolution (A : Type) :=
| Resolved (obj : A)
| does_not_exist (value : string)
| MultipleObjectsReturned.
Arguments Resolved {A} _.
Arguments does_not_exist {A} _.
Arguments MultipleObjectsReturned {A}.

(** [SlugRelatedField.to_internal_value]: [queryset.get(slug=data)]. *)
Definition SlugRelatedField_to_internal_value {A} (slug_of : A → string)
    (queryset : list A) (data : string) : resolution A :=
  match filter (λ x, slug_of x = data) queryset with
  | [] => does_not_exist data
  | [x] => Resolved x
  | _ :: _ :: _ => MultipleObjectsReturned
  end.

(** [many=True]: the items are resolved from left to right and the first
    failure is the failure of the list.  The validators given to the field
    stay with the child relation, whose validation is never run. *)
Fixpoint ManyRelatedField_to_internal_value {A} (slug_of : A → string)
    (queryset : list A) (data : list string) : resolution (list A) :=
  match data with
  | [] => Resolved []
  | item :: rest =>
      match SlugRelatedField_to_internal_value slug_of queryset item with
      | Resolved x =>
          match ManyRelatedField_to_internal_value slug_of queryset rest with
          | Resolved xs => Resolved (x :: xs)
          | does_not_exist v => does_not_exist v
          | MultipleObjectsReturned => MultipleObjectsReturned
          end
      | does_not_exist v => does_not_exist v
      | MultipleObjectsReturned => MultipleObjectsReturned
      end
  end.

(** [category = SlugRelatedField(slug_field='slug',
    queryset=Category.objects.all())] *)
Definition category_to_internal_value (db : DB) (data : string)
    : resolution Category :=
  SlugRelatedField_to_internal_value category_slug (Category_objects db) data.

(** [genre = SlugRelatedField(slug_field='slug', many=True,
    queryset=Genre.objects.all(), ...)]; [Genre_objects] is the Genre
    table. *)
Definition genre_to_internal_value (Genre_objects : list Genre)
    (data : list string) : resolution (list Genre) :=
  ManyRelatedField_to_internal_value genre_slug Genre_objects data.

End RelatedFields.

(** ** Which fields a model serializer reads *)

Module SerializerFields.

(** The declarations of a model serializer class that decide which keys
    of the input it reads: the fields declared on the class with their
    [read_only] flag, [Meta.fields] ([None] for ['__all__']) and
    [Meta.read_only_fields]. *)
Record SerializerClass := mkSerializerClass {
  declared_fields : list (string * bool);
  Meta_fields : option (list string);
  Meta_read_only_fields : list string
}.

Definition user_fields : list string :=
  ["username"; "email"; "first_name"; "last_name"; "bio"; "role"].

Definition UserSerialiser : SerializerClass :=
  mkSerializerClass [] (Some user_fields) [].

Definition SelfEditSerializer : SerializerClass :=
  mkSerializerClass [] (Some user_fields) ["role"].

Definition ReviewSerializer : SerializerClass :=
  mkSerializerClass [("title", true); ("author", true)] None [].

Definition CommentSerializer : SerializerClass :=
  mkSerializerClass [("review", true); ("author", true)] None [].

Definition declared_read_only (cls : SerializerClass) (name : string)
    : option bool :=
  snd <$> List.find (λ d, String.eqb (fst d) name) (declared_fields cls).

(** The names of the fields of the serializer; [model_fields] are the
    fields of its model. *)
Definition field_names (cls : SerializerClass) (model_fields : list string)
    : list string :=
  match Meta_fields cls with
  | Some names => names
  | None =>
      (model_fields
       ++ List.filter (λ n, negb (existsb (String.eqb n) model_fields))
                      (fst <$> declared_fields cls))%list
  end.

(** A declared field is read-only as it says itself; a field built from
    the model is read-only when [Meta.read_only_fields] lists it or the
    model field cannot be edited ([not_editable]: the automatic key and
    the fields with [editable=False]). *)
Definition is_read_only (cls : SerializerClass) (not_editable : list string)
    (name : string) : bool :=
  match declared_read_only cls name with
  | Some read_only => read_only
  | None =>
      existsb (String.eqb name) (Meta_read_only_fields cls)
      || existsb (String.eqb name) not_editable
  end.

Definition writable_fields (cls : SerializerClass)
    (model_fields not_editable : list string) : list string :=
  List.filter (λ n, negb (is_read_only cls not_editable n))
              (field_names cls model_fields).

(** The entries of the input that reach validation: the input is read
    through the writable fields only.  What each field then makes of its
    value is not modelled. *)
Definition read_input {V} (cls : SerializerClass)
    (model_fields not_editable : list string) (data : gmap string V)
    : gmap string V :=
  filter (λ kv, kv.1 ∈ writable_fields cls model_fields not_editable) data.

End SerializerFields.

(** ** Writes to the store *)

Module Writes.
Import Models.

(** A saved row is appended to its table. *)
Definition create_User (db : DB) (u : User) : DB :=
  mkDB (User_objects db ++ [u]) (Category_objects db)
       (Title_objects db) (Review_objects db).

Definition create_Category (db : DB) (c : Category) : DB :=
  mkDB (User_objects db) (Category_objects db ++ [c])
       (Title_objects db) (Review_objects db).

Definition create_Review (db : DB) (r : Review) : DB :=
  mkDB (User_objects db) (Category_objects db)
       (Title_objects db) (Review_objects db ++ [r]).

End Writes.

(** ** Vocabulary for the parameters of the Title search *)

Module FilterVocabulary.
Import Models Filters Spec.

(** The value a text filter looks up for the text of its parameter. *)
Definition text_value (raw : option string) : option cell :=
  match raw with
  | Some v => if String.eqb v "" then None else Some (Str v)
  | None => None
  end.

(** The filters of [TitleFilter] with the values cleaned from [data],
    given the value [year_value] cleaned for [year]. *)
Definition cleaned (data : gmap string string) (year_value : option cell)
    : list (Filter * option cell) :=
  [(TitleFilter.name, text_value (data !! "name"));
   (TitleFilter.year, year_value);
   (description_filter, text_value (data !! "description"));
   (TitleFilter.category, text_value (data !! "category"));
   (TitleFilter.genre, text_value (data !! "genre"))].

Definition described_as (text : string) (t : Title) : Prop :=
  title_description t = Some text.

(** The Title satisfies every parameter of [data] that is supplied;
    [year_value] is the value cleaned for [year]. *)
Definition satisfies (data : gmap string string) (year_value : option cell)
    (t : Title) : Prop :=
  (∀ v, supplied (data !! "category") v → in_category v t)
  ∧ (∀ v, supplied (data !! "genre") v → has_genre v t)
  ∧ (∀ v, supplied (data !! "name") v → name_contains v t)
  ∧ (∀ v, supplied (data !! "description") v → described_as v t)
  ∧ (∀ y, year_value = Some (Num y) → title_year t = y).

(** No Title of the queryset is linked to two genres with one slug. *)
Definition genre_slugs_distinct (queryset : list Title) : Prop :=
  ∀ t, In t queryset → NoDup (genre_slug <$> title_genre t).

End FilterVocabulary.

(** ** More requests on the example store *)

Module MoreExamples.
Import Models Http Effects Serializers Spec Examples.

Definition carol : User := plain_user 9 "carol".

Definition registration : Serializer User :=
  mkSerializer None (mkContext (mkRequest "POST" anonymous) (mkView ∅)).

Definition carol_data : gmap string string :=
  {[ "username" := "carol"; "email" := "carol@example.org" ]}.

Definition books : Category := mkCategory "Books" "book".

Definition category_create : Serializer Category :=
  mkSerializer None (mkContext (mkRequest "POST" root) (mkView ∅)).

(** A request for the Reviews whose path carries no Title identifier. *)
Definition review_without_title : Serializer Review :=
  mkSerializer None (mkContext (mkRequest "POST" ann) (mkView ∅)).

Definition review_of_bob : Review := mkReview 2 1 8 "not bad" 7.

End MoreExamples.

(** * Properties *)

(** ** Permissions *)

Section PermissionProperties.
Import Models Http Permissions Spec.

Lemma str_in_In (x : string) (xs : list string) :
  str_in x xs = true ↔ In x xs.
Proof.
  unfold str_in. rewrite existsb_exists. split.
  - intros (y & Hy & Heq). apply String.eqb_eq in Heq. by subst.
  - intros Hx. exists x. split; [done | apply String.eqb_refl].
Qed.

Lemma str_in_not_In (x : string) (xs : list string) :
  str_in x xs = false ↔ ¬ In x xs.
Proof.
  rewrite <- str_in_In. destruct (str_in x xs); split; congruence.
Qed.

Lemma User_eq_is_author (who : User) (obj : Authored) :
  User_eq who (author obj) = true ↔ is_author who obj.
Proof.
  unfold User_eq, is_author.
  destruct (user_pk who) as [x|], (user_pk (author obj)) as [y|]; split;
    try discriminate; try (by intros (pk & ? & ?)).
  - intros H%bool_decide_eq_true. subst. eauto.
  - intros (pk & [= ->] & [= ->]). by apply bool_decide_eq_true.
Qed.

(** C7. [IsAdminOrReadOnly.has_permission] grants every GET, HEAD and
    OPTIONS request whoever sends it, the anonymous identity included;
    a request with any other method is granted exactly when its sender
    is authenticated and is an admin or a superuser, so an authenticated
    sender that is neither is denied. *)
Theorem IsAdminOrReadOnly_has_permission_spec (request : Request) (view : View) :
  (safe_method request →
     IsAdminOrReadOnly.has_permission request view = true)
  ∧ (¬ safe_method request →
       (IsAdminOrReadOnly.has_permission request view = true
        ↔ is_authenticated (user request) = true
          ∧ (is_admin (user request) = true
             ∨ is_superuser (user request) = true)))
  ∧ (¬ safe_method request →
     is_authenticated (user request) = true →
     is_admin (user request) = false →
     is_superuser (user request) = false →
       IsAdminOrReadOnly.has_permission request view = false).
Proof.
  unfold IsAdminOrReadOnly.has_permission, safe_method.
  split; [|split].
  - intros Hs%str_in_In. by rewrite Hs.
  - intros Hu%str_in_not_In. rewrite Hu. simpl.
    rewrite andb_true_iff, orb_true_iff. tauto.
  - intros Hu%str_in_not_In _ Ha Hs. by rewrite Hu, Ha, Hs, andb_false_r.
Qed.

(** C8. At the object level [IsAdminOrModeratirOrAuthor] grants every
    request with a safe method; a request with an unsafe method is
    granted exactly when its sender is a superuser, an admin, a
    moderator or the author of the object, and is denied otherwise. *)
Theorem IsAdminOrModeratirOrAuthor_has_object_permission_spec
    (request : Request) (view : View) (obj : Authored) :
  (safe_method request →
     IsAdminOrModeratirOrAuthor.has_object_permission request view obj = true)
  ∧ (¬ safe_method request →
       (IsAdminOrModeratirOrAuthor.has_object_permission request view obj = true
        ↔ is_superuser (user request) = true
          ∨ is_admin (user request) = true
          ∨ is_moderator (user request) = true
          ∨ is_author (user request) obj))
  ∧ (¬ safe_method request →
     ¬ (is_superuser (user request) = true
        ∨ is_admin (user request) = true
        ∨ is_moderator (user request) = true
        ∨ is_author (user request) obj) →
       IsAdminOrModeratirOrAuthor.has_object_permission request view obj = false).
Proof.
  unfold IsAdminOrModeratirOrAuthor.has_object_permission, safe_method.
  rewrite <- User_eq_is_author.
  split; [|split].
  - intros Hs%str_in_In. by rewrite Hs.
  - intros Hu%str_in_not_In. rewrite Hu. simpl.
    rewrite !orb_true_iff. tauto.
  - intros Hu%str_in_not_In Hn. rewrite Hu. simpl.
    apply not_true_is_false. rewrite !orb_true_iff. tauto.
Qed.

End PermissionProperties.

(** ** Serializer validators *)

Section StoreLemmas.
Import Models Effects.

Lemma exists__filter {A} (P : A → Prop) `{!∀ x, Decision (P x)} (rows : list A) :
  exists_ (filter P rows) = true ↔ ∃ x, In x rows ∧ P x.
Proof.
  split.
  - destruct (filter P rows) as [|x rest] eqn:E; [discriminate|].
    intros _. assert (Hx : x ∈ filter P rows) by (rewrite E; left).
    apply list_elem_of_filter in Hx as [HP Hin].
    exists x. by rewrite <- list_elem_of_In.
  - intros (x & Hin & HP).
    assert (Hx : x ∈ filter P rows).
    { apply list_elem_of_filter. by rewrite list_elem_of_In. }
    destruct (filter P rows); [by inversion Hx | done].
Qed.

Lemma exists__filter_false {A} (P : A → Prop) `{!∀ x, Decision (P x)} (rows : list A) :
  exists_ (filter P rows) = false ↔ ¬ ∃ x, In x rows ∧ P x.
Proof.
  split.
  - intros Hf Hex. apply (proj2 (exists__filter P rows)) in Hex. congruence.
  - intros Hn. destruct (exists_ (filter P rows)) eqn:E; [|done].
    by apply exists__filter in E.
Qed.

Lemma head_filter_Some {A} (P : A → Prop) `{!∀ x, Decision (P x)} (rows : list A) x :
  head (filter P rows) = Some x → In x rows ∧ P x.
Proof.
  intros Hx%head_Some_elem_of. apply list_elem_of_filter in Hx as [? ?].
  by rewrite <- list_elem_of_In.
Qed.

Lemma head_filter_None {A} (P : A → Prop) `{!∀ x, Decision (P x)} (rows : list A) :
  head (filter P rows) = None ↔ ¬ ∃ x, In x rows ∧ P x.
Proof.
  rewrite head_None. split.
  - intros E Hex. apply (proj2 (exists__filter P rows)) in Hex.
    by rewrite E in Hex.
  - intros Hn. apply (proj2 (exists__filter_false P rows)) in Hn.
    by destruct (filter P rows).
Qed.

(** How a sequence runs: its outcome and the queries it sends. *)
Lemma outcome_bind {A B} (m : M A) (k : A → M B) :
  outcome (m ≫= k) =
    match outcome m with
    | inl e => inl e
    | inr a => outcome (k a)
    end.
Proof.
  destruct m as [[e|a] qs]; [reflexivity|].
  unfold mbind, M_bind, bind, outcome. simpl. by destruct (k a).
Qed.

Lemma queries_bind {A B} (m : M A) (k : A → M B) :
  queries (m ≫= k) =
    (queries m ++ match outcome m with
                  | inl _ => []
                  | inr a => queries (k a)
                  end)%list.
Proof.
  destruct m as [[e|a] qs]; unfold mbind, M_bind, bind, outcome, queries; simpl.
  - by rewrite app_nil_r.
  - by destruct (k a).
Qed.

Lemma outcome_raise_if (cond : bool) (e : exc) :
  outcome (raise_if cond e) = if cond then inl e else inr tt.
Proof. by destruct cond. Qed.

Lemma queries_raise_if (cond : bool) (e : exc) :
  queries (raise_if cond e) = [].
Proof. by destruct cond. Qed.

Lemma outcome_queries {A} (m : M A) : m = (outcome m, queries m).
Proof. by destruct m. Qed.

End StoreLemmas.

Create Rewrite HintDb run.
#[export] Hint Rewrite @outcome_bind @queries_bind outcome_raise_if
  queries_raise_if : run.

(** Unfolds the sequencing of a validator, leaving the conditions it
    tests. *)
Ltac run := autorewrite with run; cbn [Effects.outcome Effects.queries Effects.sent Effects.ret mret Effects.M_ret fst snd].

Section CreateUserProperties.
Import Models Http Effects Serializers Spec.
Import CreateUserSerializer.

Lemma CreateUserSerializer_validate_outcome db self (data : gmap string string) :
  outcome (validate db self data) =
    if bool_decide (data !! "username" = Some "me") then
      inl (serializers_ValidationError "Использовать имя me запрещено")
    else if exists_ (filter (λ u, Some (username u) = data !! "username")
                            (User_objects db)) then
      inl (serializers_ValidationError "Такой пользователь существует")
    else if exists_ (filter (λ u, Some (email u) = data !! "email")
                            (User_objects db)) then
      inl (serializers_ValidationError "Пользователь с таким email существует")
    else inr data.
Proof.
  unfold validate, User_filter_username, User_filter_email. run.
  destruct (bool_decide _); [reflexivity|]. run.
  destruct (exists_ (filter (λ u, Some (username u) = _) _)); [reflexivity|]. run.
  by destruct (exists_ (filter (λ u, Some (email u) = _) _)).
Qed.

(** C5. Registration validation raises a ValidationError exactly when
    the submitted username is the literal "me", or a User with that
    username is in the store, or a User with that email is in the store;
    when none of the three holds it returns the data unchanged. *)
Theorem CreateUserSerializer_validate_spec db self (data : gmap string string) :
  ((∃ detail, outcome (validate db self data)
              = inl (serializers_ValidationError detail))
   ↔ data !! "username" = Some "me"
     ∨ username_taken db (data !! "username")
     ∨ email_taken db (data !! "email"))
  ∧ (outcome (validate db self data) = inr data
     ↔ ¬ (data !! "username" = Some "me"
          ∨ username_taken db (data !! "username")
          ∨ email_taken db (data !! "email"))).
Proof.
  rewrite CreateUserSerializer_validate_outcome.
  unfold username_taken, email_taken.
  destruct (bool_decide _) eqn:Hme.
  { apply bool_decide_eq_true in Hme. split; split; eauto; try discriminate.
    tauto. }
  apply bool_decide_eq_false in Hme.
  destruct (exists_ (filter (λ u, Some (username u) = _) _)) eqn:Hn.
  { apply exists__filter in Hn. split; split; eauto; try discriminate.
    tauto. }
  apply exists__filter_false in Hn.
  destruct (exists_ (filter (λ u, Some (email u) = _) _)) eqn:He.
  { apply exists__filter in He. split; split; eauto; try discriminate.
    tauto. }
  apply exists__filter_false in He.
  split; split; try tauto.
  intros (? & [=]).
Qed.

End CreateUserProperties.

Section CategoryProperties.
Import Models Http Effects Serializers Spec.
Import CategorySerializer.

Lemma CategorySerializer_validate_slug_outcome db self value :
  outcome (validate_slug db self value) =
    if exists_ (filter (λ c, category_slug c = value) (Category_objects db)) then
      inl (serializers_ValidationError "Категория с таким slug уже существует!")
    else inr value.
Proof.
  unfold validate_slug, Category_filter_slug_exists. run.
  by destruct (exists_ _).
Qed.

(** C2. Slug validation of a Category write raises a ValidationError
    whenever a Category with the submitted slug is in the store, and so
    also when an update submits the slug the updated record already has;
    when no Category has the slug, a non-blank slug of at most 50
    characters passes and is returned. *)
Theorem CategorySerializer_validate_slug_spec db self value :
  (slug_taken db value →
     outcome (validate_slug db self value)
     = inl (serializers_ValidationError "Категория с таким slug уже существует!"))
  ∧ (∀ own, instance self = Some own → In own (Category_objects db) →
       outcome (validate_slug db self (category_slug own))
       = inl (serializers_ValidationError "Категория с таким slug уже существует!"))
  ∧ (¬ slug_taken db value → slug_field_accepts value = true →
       outcome (validate_slug db self value) = inr value).
Proof.
  unfold slug_taken. split; [|split].
  - intros Ht. rewrite CategorySerializer_validate_slug_outcome.
    apply (proj2 (exists__filter _ _)) in Ht. by rewrite Ht.
  - intros own _ Hin. rewrite CategorySerializer_validate_slug_outcome.
    assert (Ht : ∃ c, In c (Category_objects db)
                      ∧ category_slug c = category_slug own) by eauto.
    apply (proj2 (exists__filter _ _)) in Ht. by rewrite Ht.
  - intros Hf _. rewrite CategorySerializer_validate_slug_outcome.
    apply (proj2 (exists__filter_false _ _)) in Hf. by rewrite Hf.
Qed.

End CategoryProperties.

Section TitleWriteProperties.
Import Models Http Effects Serializers.
Import TitleWriteSerializer.

(** C6. Year validation of a Title write raises a ValidationError for
    every year strictly greater than the current calendar year and
    returns every year that is at most the current year; the current
    year itself passes. *)
Theorem TitleWriteSerializer_validate_year_spec now_year self value :
  ((value > now_year)%Z →
     outcome (validate_year now_year self value)
     = inl (serializers_ValidationError
              "Значение года не может быть больше текущего"))
  ∧ ((value ≤ now_year)%Z →
       outcome (validate_year now_year self value) = inr value)
  ∧ outcome (validate_year now_year self now_year) = inr now_year.
Proof.
  unfold validate_year. run. split; [|split].
  - intros H. by rewrite (proj2 (Z.gtb_gt _ _)) by lia.
  - intros H. rewrite Z.gtb_ltb, (proj2 (Z.ltb_ge _ _)); [done | lia].
  - by rewrite Z.gtb_ltb, Z.ltb_irrefl.
Qed.

End TitleWriteProperties.

Section ReviewProperties.
Import Models Http Effects Serializers Spec.
Import ReviewSerializer.

(** The condition [0 > value > 10] holds for no integer. *)
Lemma ReviewSerializer_validate_score_never_raises self value :
  outcome (validate_score self value) = inr value.
Proof.
  unfold validate_score. run.
  destruct (0 >? value) eqn:Hneg, (value >? 10) eqn:Hbig; try reflexivity.
  apply Z.gtb_gt in Hneg, Hbig. lia.
Qed.

(** C1. Score validation of a Review accepts the scores 11 and -1,
    which lie outside the range from 0 to 10. *)
Theorem ReviewSerializer_validate_score_out_of_range self :
  outcome (validate_score self 11) = inr 11
  ∧ outcome (validate_score self (-1)) = inr (-1).
Proof.
  split; apply ReviewSerializer_validate_score_never_raises.
Qed.

Lemma get_Title_or_404_outcome db pk :
  outcome (get_Title_or_404 db pk) =
    match head (filter (λ t, Some (title_pk t) = pk) (Title_objects db)) with
    | Some t => inr t
    | None => inl Http404
    end.
Proof. unfold get_Title_or_404. run. by destruct (head _). Qed.

Lemma get_Title_or_404_queries db pk :
  queries (get_Title_or_404 db pk) = [Title_by_pk pk].
Proof. unfold get_Title_or_404. run. by destruct (head _). Qed.

Lemma get_Title_or_404_found db pk :
  title_exists db pk →
  ∃ t, outcome (get_Title_or_404 db pk) = inr t ∧ Some (title_pk t) = pk.
Proof.
  intros Hex. rewrite get_Title_or_404_outcome.
  destruct (head _) as [t|] eqn:Hhead.
  - apply head_filter_Some in Hhead as [_ Hpk]. eauto.
  - by apply head_filter_None in Hhead.
Qed.

Lemma get_Title_or_404_missing db pk :
  ¬ title_exists db pk → outcome (get_Title_or_404 db pk) = inl Http404.
Proof.
  intros Hno. rewrite get_Title_or_404_outcome.
  destruct (head _) as [t|] eqn:Hhead; [|done].
  apply head_filter_Some in Hhead. destruct Hno. by exists t.
Qed.

(** C4. When a request creates a Review (POST) for a Title the path
    resolves to, validation raises a ValidationError if the store
    already holds a Review of that Title by the sender; if it holds
    none, which is the case for another author or another Title, the
    duplicate check passes and the data is returned. *)
Theorem ReviewSerializer_validate_create {V} db self (data : gmap string V) title :
  is_create self →
  path_title_id self = Some title →
  title_exists db (Some title) →
  (reviewed_by db title (requester self) →
     outcome (validate db self data)
     = inl (ValidationError "Больше одного отзыва на title писать нельзя"))
  ∧ (¬ reviewed_by db title (requester self) →
       outcome (validate db self data) = inr data).
Proof.
  unfold is_create, path_title_id, requester, reviewed_by.
  intros Hpost Hid Hex.
  destruct (get_Title_or_404_found _ _ Hex) as (t & Ht & [= Hpk]).
  unfold validate. rewrite Hid. run. rewrite Ht, Hpost. simpl. run.
  unfold Review_filter_exists. cbn [outcome fst sent]. rewrite Hpk. split.
  - intros Hdup. apply (proj2 (exists__filter _ _)) in Hdup. by rewrite Hdup.
  - intros Hnew. apply (proj2 (exists__filter_false _ _)) in Hnew.
    by rewrite Hnew.
Qed.

(** C10. Validation of a Review resolves the Title of the path first,
    whatever the method of the request: the lookup of the Title is the
    first query it sends, and when the path identifier names no Title
    it raises the not-found error after that one query, so without
    consulting the Reviews, for an update as for a create. *)
Theorem ReviewSerializer_validate_resolves_title_first {V} db self
    (data : gmap string V) :
  (∃ later, queries (validate db self data)
            = Title_by_pk (path_title_id self) :: later)
  ∧ (¬ title_exists db (path_title_id self) →
       validate db self data = (inl Http404, [Title_by_pk (path_title_id self)])).
Proof.
  unfold path_title_id. split.
  - unfold validate. run. rewrite get_Title_or_404_queries. simpl. eauto.
  - intros Hno. rewrite (outcome_queries (validate db self data)).
    unfold validate. run.
    by rewrite get_Title_or_404_queries, (get_Title_or_404_missing _ _ Hno).
Qed.

End ReviewProperties.

(** ** The Title filter *)

Section StringLemmas.
Import Filters.

Lemma startswith_spec (s p : string) :
  startswith s p = true ↔ ∃ after, s = p ++ after.
Proof.
  revert s. induction p as [|a p IH]; intros s; simpl.
  - split; [eauto | by destruct s].
  - destruct s as [|b s]; simpl.
    + split; [done | by intros (? & [=])].
    + rewrite andb_true_iff, IH. split.
      * intros (Hab%Ascii.eqb_eq & after & ->). subst. eauto.
      * intros (after & [= -> ->]). split; [apply Ascii.eqb_refl | eauto].
Qed.

Lemma contains_spec (s sub : string) :
  contains s sub = true ↔ ∃ before after, s = before ++ sub ++ after.
Proof.
  induction s as [|b s IH]; cbn [contains].
  - rewrite orb_false_r, startswith_spec. split.
    + intros (after & ->). by exists "", after.
    + intros (before & after & H). destruct before; [eauto|discriminate].
  - rewrite orb_true_iff, startswith_spec, IH. split.
    + intros [(after & ->) | (before & after & ->)].
      * by exists "", after.
      * by exists (String b before), after.
    + intros (before & after & H). destruct before as [|c before].
      * left. eauto.
      * right. injection H as -> ->. eauto.
Qed.

End StringLemmas.

Section QuerySetLemmas.
Import Models Filters Spec.

Lemma In_QuerySet_filter values l v (qs : list Title) t :
  In t (QuerySet_filter values l v qs)
  ↔ In t qs ∧ ∃ c, In c (values t) ∧ lookup_holds l v c = true.
Proof.
  unfold QuerySet_filter. rewrite in_flat_map. split.
  - intros (x & Hx & Hin). rewrite <- list_elem_of_In in Hin.
    apply list_elem_of_fmap in Hin as (c & -> & Hc).
    rewrite list_elem_of_In in Hc. apply filter_In in Hc as [? ?]. eauto.
  - intros (Hin & c & Hc & Hl). exists t. split; [done|].
    rewrite <- list_elem_of_In. apply list_elem_of_fmap. exists c.
    split; [done|]. rewrite list_elem_of_In. by apply filter_In.
Qed.

Lemma filter_queryset_In (cleaned_data : list (Filter * option cell)) :
  Forall (λ fv, is_Some (Title_path (field_name fv.1))) cleaned_data →
  ∀ qs, ∃ selected,
    filter_queryset cleaned_data qs = inr selected
    ∧ ∀ t, In t selected ↔ In t qs ∧ Forall (λ fv, accepts fv t) cleaned_data.
Proof.
  induction 1 as [|[f v] rest [values Hpath] _ IH]; intros qs; simpl.
  - exists qs. split; [done|]. intros t. split; [by split | by intros []].
  - simpl in Hpath. unfold Filter_filter. destruct v as [v|].
    + rewrite Hpath.
      destruct (IH (QuerySet_filter values (lookup_expr f) v qs))
        as (selected & -> & Hsel).
      exists selected. split; [done|]. intros t.
      rewrite Hsel, In_QuerySet_filter, Forall_cons.
      unfold accepts at 2, passes. simpl. split.
      * intros [[? (c & ? & ?)] ?]. eauto 10.
      * intros [? [(values' & c & Hp & ? & ?) ?]].
        rewrite Hpath in Hp. injection Hp as <-. eauto 10.
    + destruct (IH qs) as (selected & -> & Hsel).
      exists selected. split; [done|]. intros t.
      rewrite Hsel, Forall_cons. unfold accepts at 2. simpl. tauto.
Qed.

End QuerySetLemmas.

Section TitleFilterProperties.
Import Models Filters Spec.

Lemma TitleFilter_filters :
  TitleFilter.filters =
    [("name", TitleFilter.name); ("year", TitleFilter.year);
     ("description", description_filter);
     ("category", TitleFilter.category); ("genre", TitleFilter.genre)].
Proof. reflexivity. Qed.

(** The result depends on the five parameters that name a filter. *)
Lemma TitleFilter_qs_ext (data data' : gmap string string) queryset :
  data !! "name" = data' !! "name" →
  data !! "year" = data' !! "year" →
  data !! "description" = data' !! "description" →
  data !! "category" = data' !! "category" →
  data !! "genre" = data' !! "genre" →
  TitleFilter.qs data queryset = TitleFilter.qs data' queryset.
Proof.
  intros Hn Hy Hd Hc Hg. unfold TitleFilter.qs, FilterSet_qs.
  rewrite TitleFilter_filters. cbn [full_clean].
  by rewrite Hn, Hy, Hd, Hc, Hg.
Qed.

Lemma lookup_only (names : list string) (data : gmap string string) name :
  name ∈ names → only names data !! name = data !! name.
Proof.
  intros Hin. unfold only. destruct (data !! name) as [v|] eqn:Hv.
  - by apply map_lookup_filter_Some.
  - apply map_lookup_filter_None. by left.
Qed.

(** C3, as the code has it.  Parameters other than category, genre,
    name, year and description have no effect on the Titles that
    [TitleFilter] selects: the result is the one obtained from these
    five parameters alone.  ([Meta.fields = '__all__'] gives the
    description column a filter of its own.) *)
Theorem TitleFilter_ignores_other_parameters (data : gmap string string) queryset :
  TitleFilter.qs data queryset
  = TitleFilter.qs
      (only ["category"; "genre"; "name"; "year"; "description"] data) queryset.
Proof.
  apply TitleFilter_qs_ext; symmetry; apply lookup_only;
    rewrite list_elem_of_In; simpl; tauto.
Qed.

(** C3, as stated, fails: with the parameter [description=sequel] no
    Title without that description is selected, while the four declared
    parameters alone (here: none) select every Title. *)
Lemma TitleFilter_description_parameter_filters :
  TitleFilter.qs {[ "description" := "sequel" ]} [title_A] = inr []
  ∧ TitleFilter.qs
      (only ["category"; "genre"; "name"; "year"] {[ "description" := "sequel" ]})
      [title_A] = inr [title_A]
  ∧ TitleFilter.qs {[ "description" := "sequel" ]} [title_A]
    ≠ TitleFilter.qs
        (only ["category"; "genre"; "name"; "year"] {[ "description" := "sequel" ]})
        [title_A].
Proof.
  split; [|split].
  - vm_compute. reflexivity.
  - vm_compute. reflexivity.
  - vm_compute. discriminate.
Qed.

(** *** What each lookup asks of a Title *)

Lemma passes_category v t :
  passes TitleFilter.category (Str v) t ↔ in_category v t.
Proof.
  unfold passes, in_category. simpl. split.
  - intros (values & c & [= <-] & Hin & Hl).
    destruct (title_category t) as [cat|]; simpl in Hin; [|done].
    destruct Hin as [<-|[]]. simpl in Hl. apply String.eqb_eq in Hl. eauto.
  - intros (cat & Hcat & <-). eexists _, (Str (category_slug cat)).
    split; [done|]. cbn. rewrite Hcat. split; [by left|].
    apply String.eqb_refl.
Qed.

Lemma passes_genre v t :
  passes TitleFilter.genre (Str v) t ↔ has_genre v t.
Proof.
  unfold passes, has_genre. simpl. split.
  - intros (values & c & [= <-] & Hin & Hl).
    rewrite <- list_elem_of_In in Hin.
    apply list_elem_of_fmap in Hin as (g & -> & Hg).
    rewrite list_elem_of_In in Hg. simpl in Hl.
    apply String.eqb_eq in Hl. eauto.
  - intros (g & Hg & <-). eexists _, (Str (genre_slug g)).
    split; [done|]. split; [|apply String.eqb_refl].
    rewrite <- list_elem_of_In. apply list_elem_of_fmap. exists g.
    by rewrite list_elem_of_In.
Qed.

Lemma passes_name v t :
  passes TitleFilter.name (Str v) t ↔ name_contains v t.
Proof.
  unfold passes, name_contains. simpl. split.
  - intros (values & c & [= <-] & [<-|[]] & Hl). by apply contains_spec.
  - intros Hsub. eexists _, (Str (title_name t)).
    split; [done|]. split; [by left|]. by apply contains_spec.
Qed.

Lemma passes_year n t :
  passes TitleFilter.year (Num n) t ↔ title_year t = n.
Proof.
  unfold passes. simpl. split.
  - intros (values & c & [= <-] & [<-|[]] & Hl). by apply Z.eqb_eq.
  - intros <-. eexists _, (Num (title_year t)).
    split; [done|]. split; [by left|]. apply Z.eqb_refl.
Qed.

(** *** Cleaning the parameters *)

Lemma clean_CharFilter raw :
  clean CharFilter raw
  = Some (match raw with
          | Some v => if String.eqb v "" then None else Some (Str v)
          | None => None
          end).
Proof. destruct raw as [v|]; [|done]. simpl. by destruct (String.eqb v ""). Qed.

Lemma accepts_CharFilter f raw t :
  accepts (f, match raw with
              | Some v => if String.eqb v "" then None else Some (Str v)
              | None => None
              end) t
  ↔ ∀ v, supplied raw v → passes f (Str v) t.
Proof.
  unfold accepts, supplied. simpl. destruct raw as [v|].
  - destruct (String.eqb_spec v ""); split.
    + by intros _ v' [[= <-] ?].
    + done.
    + by intros Hp v' [[= <-] ?].
    + intros Hp. by apply Hp.
  - split; [by intros _ v [? ?] | done].
Qed.







End TitleFilterProperties.

(** ** The properties at work on the example store *)

Section Instances.
Import Models Http Effects Permissions Serializers Spec Examples.

Lemma IsAdminOrReadOnly_has_permission_witness :
  IsAdminOrReadOnly.has_permission (mkRequest "GET" anonymous) (mkView ∅) = true
  ∧ IsAdminOrReadOnly.has_permission (mkRequest "POST" ann) (mkView ∅) = false.
Proof.
  split.
  - apply (proj1 (IsAdminOrReadOnly_has_permission_spec
                    (mkRequest "GET" anonymous) (mkView ∅))).
    unfold safe_method. simpl. auto.
  - apply (proj2 (proj2 (IsAdminOrReadOnly_has_permission_spec
                           (mkRequest "POST" ann) (mkView ∅))));
      try reflexivity.
    unfold safe_method. simpl. intros [H|[H|[H|[]]]]; discriminate H.
Defined.

Lemma IsAdminOrModeratirOrAuthor_has_object_permission_witness :
  IsAdminOrModeratirOrAuthor.has_object_permission
    (mkRequest "DELETE" ann) (mkView ∅) review_of_ann = true
  ∧ IsAdminOrModeratirOrAuthor.has_object_permission
      (mkRequest "DELETE" bob) (mkView ∅) review_of_ann = false.
Proof.
  split.
  - apply (proj1 (proj2 (IsAdminOrModeratirOrAuthor_has_object_permission_spec
                           (mkRequest "DELETE" ann) (mkView ∅) review_of_ann))).
    + unfold safe_method. simpl. intros [H|[H|[H|[]]]]; discriminate H.
    + right. right. right. exists 7. split; reflexivity.
  - apply (proj2 (proj2 (IsAdminOrModeratirOrAuthor_has_object_permission_spec
                           (mkRequest "DELETE" bob) (mkView ∅) review_of_ann))).
    + unfold safe_method. simpl. intros [H|[H|[H|[]]]]; discriminate H.
    + intros [H|[H|[H|(pk & H & H')]]]; try discriminate H.
      simpl in H, H'. congruence.
Defined.

Lemma CategorySerializer_validate_slug_witness :
  outcome (CategorySerializer.validate_slug store (category_update movie) "movie")
  = inl (serializers_ValidationError "Категория с таким slug уже существует!")
  ∧ outcome (CategorySerializer.validate_slug store (category_update movie) "book")
    = inr "book".
Proof.
  split.
  - apply (proj1 (proj2 (CategorySerializer_validate_slug_spec
                           store (category_update movie) "movie")) movie).
    + reflexivity.
    + left. reflexivity.
  - apply (proj2 (proj2 (CategorySerializer_validate_slug_spec
                           store (category_update movie) "book"))).
    + intros (c & [<-|[]] & H). discriminate H.
    + reflexivity.
Defined.

Lemma TitleWriteSerializer_validate_year_witness :
  outcome (TitleWriteSerializer.validate_year 2024 title_create 2025)
  = inl (serializers_ValidationError
           "Значение года не может быть больше текущего")
  ∧ outcome (TitleWriteSerializer.validate_year 2024 title_create 1999) = inr 1999.
Proof.
  split.
  - apply (proj1 (TitleWriteSerializer_validate_year_spec 2024 title_create 2025)).
    lia.
  - apply (proj1 (proj2 (TitleWriteSerializer_validate_year_spec
                           2024 title_create 1999))).
    lia.
Defined.

Lemma ReviewSerializer_validate_create_witness :
  outcome (ReviewSerializer.validate store (review_serializer "POST" ann 1) review_data)
  = inl (ValidationError "Больше одного отзыва на title писать нельзя")
  ∧ outcome (ReviewSerializer.validate store (review_serializer "POST" bob 1) review_data)
    = inr review_data
  ∧ outcome (ReviewSerializer.validate store (review_serializer "POST" ann 2) review_data)
    = inr review_data.
Proof.
  assert (HA : title_exists store (Some 1)).
  { exists title_A. split; [left|]; reflexivity. }
  assert (HB : title_exists store (Some 2)).
  { exists title_B. split; [right; left|]; reflexivity. }
  split; [|split].
  - apply (proj1 (ReviewSerializer_validate_create
                    store (review_serializer "POST" ann 1) review_data 1
                    eq_refl eq_refl HA)).
    eexists. split; [left; reflexivity|]. split; reflexivity.
  - apply (proj2 (ReviewSerializer_validate_create
                    store (review_serializer "POST" bob 1) review_data 1
                    eq_refl eq_refl HA)).
    intros (r & [<-|[]] & _ & H). discriminate H.
  - apply (proj2 (ReviewSerializer_validate_create
                    store (review_serializer "POST" ann 2) review_data 2
                    eq_refl eq_refl HB)).
    intros (r & [<-|[]] & H & _). discriminate H.
Defined.

Lemma ReviewSerializer_validate_resolves_title_first_witness :
  ReviewSerializer.validate store (review_serializer "PATCH" ann 9) review_data
  = (inl Http404, [Title_by_pk (Some 9)]).
Proof.
  apply (proj2 (ReviewSerializer_validate_resolves_title_first
                  store (review_serializer "PATCH" ann 9) review_data)).
  intros (t & [<-|[<-|[]]] & H); discriminate H.
Defined.

End Instances.

(** * Further properties *)

(** ** How the permission classes relate *)

Section PermissionClasses.
Import Models Http Permissions Spec.

(** X1. Whatever [AdministratorEdit] grants, [IsAdminOrReadOnly] grants;
    whatever [IsAdminOrReadOnly] grants, [IsAdminOrModeratirOrAuthor]
    grants at the collection level and for every object; and on a method
    that is not safe [IsAdminOrReadOnly] and [AdministratorEdit] decide
    alike. *)
Theorem permission_classes_are_nested (request : Request) (view : View)
    (obj : Authored) :
  (AdministratorEdit.has_permission request view = true →
     IsAdminOrReadOnly.has_permission request view = true)
  ∧ (IsAdminOrReadOnly.has_permission request view = true →
       IsAdminOrModeratirOrAuthor.has_permission request view = true
       ∧ IsAdminOrModeratirOrAuthor.has_object_permission request view obj = true)
  ∧ (¬ safe_method request →
       IsAdminOrReadOnly.has_permission request view
       = AdministratorEdit.has_permission request view).
Proof.
  unfold AdministratorEdit.has_permission, IsAdminOrReadOnly.has_permission,
    IsAdminOrModeratirOrAuthor.has_permission,
    IsAdminOrModeratirOrAuthor.has_object_permission, safe_method.
  split; [|split].
  - intros ->. apply orb_true_r.
  - destruct (str_in _ _); [done|]. simpl.
    intros (-> & [-> | ->]%orb_true_iff)%andb_true_iff; split; try done.
    by destruct (is_superuser _).
  - intros Hu%str_in_not_In. by rewrite Hu.
Qed.

(** X2. A request passes both checks of [IsAdminOrModeratirOrAuthor],
    the one of the collection and the one of the object, exactly when its
    method is safe or its sender is authenticated and is a superuser, an
    admin, a moderator or the author of the object. *)
Theorem IsAdminOrModeratirOrAuthor_both_checks (request : Request)
    (view : View) (obj : Authored) :
  IsAdminOrModeratirOrAuthor.has_permission request view = true
  ∧ IsAdminOrModeratirOrAuthor.has_object_permission request view obj = true
  ↔ safe_method request
    ∨ (is_authenticated (user request) = true
       ∧ (is_superuser (user request) = true
          ∨ is_admin (user request) = true
          ∨ is_moderator (user request) = true
          ∨ is_author (user request) obj)).
Proof.
  unfold IsAdminOrModeratirOrAuthor.has_permission,
    IsAdminOrModeratirOrAuthor.has_object_permission, safe_method.
  rewrite <- User_eq_is_author, <- str_in_In.
  destruct (str_in _ _); simpl.
  - split; [by left | done].
  - rewrite !orb_true_iff. split.
    + intros [? ?]. right. tauto.
    + intros [? | [? ?]]; [done | tauto].
Qed.

End PermissionClasses.

(** ** Registration *)

Section RegistrationProperties.
Import Models Http Effects Serializers Spec Writes.
Import CreateUserSerializer.

Lemma CreateUserSerializer_validate_queries db self (data : gmap string string) :
  queries (validate db self data) =
    if bool_decide (data !! "username" = Some "me") then []
    else if exists_ (filter (λ u, Some (username u) = data !! "username")
                            (User_objects db)) then
      [User_by_username (data !! "username")]
    else [User_by_username (data !! "username"); User_by_email (data !! "email")].
Proof.
  unfold validate, User_filter_username, User_filter_email. run.
  destruct (bool_decide _); [reflexivity|]. run.
  destruct (exists_ (filter (λ u, Some (username u) = _) _)); [reflexivity|]. run.
  by destruct (exists_ (filter (λ u, Some (email u) = _) _)).
Qed.

(** X3. The three checks of registration run in order and the first
    that fails is the one reported: the name "me" is refused without any
    query to the store; a taken username is refused after the query for
    the username alone, whether or not the email is taken too; a taken
    email is reported only for a free username; a passing registration
    has asked for the username and then for the email. *)
Theorem CreateUserSerializer_validate_in_order db self (data : gmap string string) :
  (data !! "username" = Some "me" →
     validate db self data
     = (inl (serializers_ValidationError "Использовать имя me запрещено"), []))
  ∧ (data !! "username" ≠ Some "me" →
     username_taken db (data !! "username") →
       validate db self data
       = (inl (serializers_ValidationError "Такой пользователь существует"),
          [User_by_username (data !! "username")]))
  ∧ (data !! "username" ≠ Some "me" →
     ¬ username_taken db (data !! "username") →
     email_taken db (data !! "email") →
       validate db self data
       = (inl (serializers_ValidationError "Пользователь с таким email существует"),
          [User_by_username (data !! "username"); User_by_email (data !! "email")]))
  ∧ (data !! "username" ≠ Some "me" →
     ¬ username_taken db (data !! "username") →
     ¬ email_taken db (data !! "email") →
       validate db self data
       = (inr data,
          [User_by_username (data !! "username"); User_by_email (data !! "email")])).
Proof.
  rewrite (outcome_queries (validate db self data)).
  rewrite CreateUserSerializer_validate_outcome,
    CreateUserSerializer_validate_queries.
  unfold username_taken, email_taken. repeat split.
  - intros Hme. by rewrite (bool_decide_eq_true_2 _ Hme).
  - intros Hme Hn. rewrite (bool_decide_eq_false_2 _ Hme).
    apply (proj2 (exists__filter _ _)) in Hn. by rewrite Hn.
  - intros Hme Hn He. rewrite (bool_decide_eq_false_2 _ Hme).
    apply (proj2 (exists__filter_false _ _)) in Hn.
    apply (proj2 (exists__filter _ _)) in He. by rewrite Hn, He.
  - intros Hme Hn He. rewrite (bool_decide_eq_false_2 _ Hme).
    apply (proj2 (exists__filter_false _ _)) in Hn.
    apply (proj2 (exists__filter_false _ _)) in He. by rewrite Hn, He.
Qed.

Lemma NoDup_fmap_snoc {A B} (f : A → B) (rows : list A) (x : A) :
  NoDup (f <$> rows) → (∀ y, In y rows → f y ≠ f x) →
  NoDup (f <$> (rows ++ [x])%list).
Proof.
  intros Hnd Hfresh. rewrite fmap_app. apply NoDup_app. split; [done|]. split.
  - intros b Hb Hx. apply list_elem_of_fmap in Hb as (y & -> & Hy).
    apply list_elem_of_In in Hy. simpl in Hx.
    apply list_elem_of_singleton in Hx. by apply (Hfresh y).
  - simpl. apply NoDup_singleton.
Qed.

(** X4. Registration keeps usernames and emails unique: when validation
    passes for a username and an email, saving a User with them leaves the
    usernames of the store pairwise distinct, and its emails too, the new
    User is not called "me", and the same registration is refused from
    then on. *)
Theorem CreateUserSerializer_validate_keeps_users_unique
    db self (data : gmap string string) (new : User) :
  data !! "username" = Some (username new) →
  data !! "email" = Some (email new) →
  outcome (validate db self data) = inr data →
  NoDup (username <$> User_objects db) →
  NoDup (email <$> User_objects db) →
    username new ≠ "me"
    ∧ NoDup (username <$> User_objects (create_User db new))
    ∧ NoDup (email <$> User_objects (create_User db new))
    ∧ outcome (validate (create_User db new) self data)
      = inl (serializers_ValidationError "Такой пользователь существует").
Proof.
  intros Hname Hmail Hok Hnames Hmails.
  rewrite CreateUserSerializer_validate_outcome in Hok |- *.
  rewrite Hname, Hmail in Hok |- *.
  destruct (bool_decide (Some (username new) = Some "me")) eqn:Hme;
    [discriminate|].
  apply bool_decide_eq_false in Hme.
  destruct (exists_ (filter (λ u, Some (username u) = _) (User_objects db)))
    eqn:Hn; [discriminate|].
  destruct (exists_ (filter (λ u, Some (email u) = _) (User_objects db)))
    eqn:He; [discriminate|].
  apply exists__filter_false in Hn, He.
  split; [by intros E; apply Hme; rewrite E|]. split; [|split].
  - apply NoDup_fmap_snoc; [done|]. intros y Hy E. apply Hn.
    exists y. by rewrite E.
  - apply NoDup_fmap_snoc; [done|]. intros y Hy E. apply He.
    exists y. by rewrite E.
  - assert (Hnew : ∃ u, In u (User_objects (create_User db new))
                        ∧ Some (username u) = Some (username new)).
    { exists new. split; [|done]. simpl. apply in_or_app. right. by left. }
    apply (proj2 (exists__filter _ _)) in Hnew. by rewrite Hnew.
Qed.

End RegistrationProperties.

(** ** Categories and the relation fields of a Title write *)

Section CategoryWrites.
Import Models Http Effects Serializers Spec Writes RelatedFields.

(** X5. Slug validation keeps the slugs of the store unique: when it
    passes for the slug of a new Category, saving that Category leaves the
    slugs pairwise distinct, and a second write with the same slug is
    refused. *)
Theorem CategorySerializer_validate_slug_keeps_slugs_unique
    db self self' (new : Category) :
  outcome (CategorySerializer.validate_slug db self (category_slug new))
  = inr (category_slug new) →
  NoDup (category_slug <$> Category_objects db) →
    NoDup (category_slug <$> Category_objects (create_Category db new))
    ∧ outcome (CategorySerializer.validate_slug
                 (create_Category db new) self' (category_slug new))
      = inl (serializers_ValidationError "Категория с таким slug уже существует!").
Proof.
  rewrite !CategorySerializer_validate_slug_outcome.
  destruct (exists_ (filter _ (Category_objects db))) eqn:Hfree; [discriminate|].
  intros _ Hnd. apply exists__filter_false in Hfree. split.
  - apply NoDup_fmap_snoc; [done|]. intros y Hy E. apply Hfree. by exists y.
  - assert (Hnew : ∃ c, In c (Category_objects (create_Category db new))
                        ∧ category_slug c = category_slug new).
    { exists new. split; [|done]. simpl. apply in_or_app. right. by left. }
    apply (proj2 (exists__filter _ _)) in Hnew. by rewrite Hnew.
Qed.

Lemma filter_nil_iff {A} (P : A → Prop) `{!∀ x, Decision (P x)} (rows : list A) :
  filter P rows = [] ↔ ¬ ∃ x, In x rows ∧ P x.
Proof.
  split.
  - intros E Hex. apply (proj2 (exists__filter P rows)) in Hex.
    by rewrite E in Hex.
  - intros Hn. apply (proj2 (exists__filter_false P rows)) in Hn.
    by destruct (filter P rows).
Qed.

Lemma filter_NoDup_fmap_singleton {A} (f : A → string) (rows : list A) (x : A) :
  NoDup (f <$> rows) → In x rows → filter (λ y, f y = f x) rows = [x].
Proof.
  induction rows as [|y rows IH]; [by intros _ []|].
  rewrite fmap_cons, NoDup_cons, filter_cons.
  intros [Hy Hnd] [->|Hin].
  - rewrite decide_True by done. f_equal.
    apply filter_nil_iff. intros (z & Hz & E). apply Hy.
    rewrite <- E. apply list_elem_of_fmap. exists z. by rewrite list_elem_of_In.
  - rewrite decide_False; [by apply IH|].
    intros E. apply Hy. rewrite E. apply list_elem_of_fmap. exists x.
    by rewrite list_elem_of_In.
Qed.

Lemma SlugRelatedField_Resolved {A} (slug_of : A → string) queryset data x :
  SlugRelatedField_to_internal_value slug_of queryset data = Resolved x →
  In x queryset ∧ slug_of x = data.
Proof.
  unfold SlugRelatedField_to_internal_value.
  destruct (filter _ queryset) as [|y [|z rest]] eqn:E; try discriminate.
  intros [= ->]. assert (Hx : x ∈ filter (λ y, slug_of y = data) queryset)
    by (rewrite E; left).
  apply list_elem_of_filter in Hx as [? ?]. by rewrite <- list_elem_of_In.
Qed.

Lemma SlugRelatedField_does_not_exist {A} (slug_of : A → string) queryset data v :
  SlugRelatedField_to_internal_value slug_of queryset data = does_not_exist v
  ↔ v = data ∧ ¬ ∃ x, In x queryset ∧ slug_of x = data.
Proof.
  unfold SlugRelatedField_to_internal_value.
  rewrite <- (filter_nil_iff (λ x, slug_of x = data)).
  destruct (filter _ queryset) as [|y [|z rest]]; split;
    try discriminate; try (by intros [? ?]).
  - by intros [= ->].
  - by intros [-> _].
Qed.

Lemma SlugRelatedField_round_trip {A} (slug_of : A → string) queryset x :
  NoDup (slug_of <$> queryset) → In x queryset →
  SlugRelatedField_to_internal_value slug_of queryset (slug_of x) = Resolved x.
Proof.
  intros Hnd Hin. unfold SlugRelatedField_to_internal_value.
  by rewrite (filter_NoDup_fmap_singleton slug_of queryset x Hnd Hin).
Qed.

(** X6. The [category] field of a Title write resolves a slug to a
    Category of the store that carries it, and fails with
    [does_not_exist] exactly when no Category has the slug; when the slugs
    of the store are pairwise distinct, the slug of every stored Category
    resolves back to that Category. *)
Theorem TitleWriteSerializer_category_resolves db (data : string) :
  (∀ c, category_to_internal_value db data = Resolved c →
        In c (Category_objects db) ∧ category_slug c = data)
  ∧ (category_to_internal_value db data = does_not_exist data
     ↔ ¬ slug_taken db data)
  ∧ (NoDup (category_slug <$> Category_objects db) →
     ∀ c, In c (Category_objects db) →
          category_to_internal_value db (category_slug c) = Resolved c).
Proof.
  unfold category_to_internal_value, slug_taken. split; [|split].
  - intros c. apply SlugRelatedField_Resolved.
  - rewrite SlugRelatedField_does_not_exist. tauto.
  - intros Hnd c. by apply SlugRelatedField_round_trip.
Qed.

(** X7. A Title can name exactly the categories that can no longer be
    created: slug validation of [CategorySerializer] passes for a slug
    exactly when the [category] field of a Title write fails for it with
    [does_not_exist]. *)
Theorem validate_slug_passes_iff_category_unknown db self (slug : string) :
  outcome (CategorySerializer.validate_slug db self slug) = inr slug
  ↔ category_to_internal_value db slug = does_not_exist slug.
Proof.
  rewrite CategorySerializer_validate_slug_outcome.
  unfold category_to_internal_value.
  rewrite SlugRelatedField_does_not_exist.
  rewrite <- (exists__filter_false (λ c, category_slug c = slug)).
  destruct (exists_ _); split; try done. by intros [_ ?].
Qed.

End CategoryWrites.

Section GenreField.
Import Models RelatedFields.

Lemma ManyRelatedField_Resolved {A} (slug_of : A → string) queryset data xs :
  ManyRelatedField_to_internal_value slug_of queryset data = Resolved xs →
  slug_of <$> xs = data ∧ ∀ x, In x xs → In x queryset.
Proof.
  revert xs. induction data as [|item rest IH]; intros xs; simpl.
  - intros [= <-]. split; [done | by intros ? []].
  - destruct (SlugRelatedField_to_internal_value _ _ item) as [x| |] eqn:Hx;
      try discriminate.
    destruct (ManyRelatedField_to_internal_value _ _ rest) as [xs'| |];
      try discriminate.
    intros [= <-]. apply SlugRelatedField_Resolved in Hx as [Hin <-].
    destruct (IH xs' eq_refl) as [<- Hall]. split; [done|].
    intros y [<-|Hy]; [done | by apply Hall].
Qed.

Lemma ManyRelatedField_does_not_exist {A} (slug_of : A → string) queryset data v :
  ManyRelatedField_to_internal_value slug_of queryset data = does_not_exist v →
  In v data ∧ ¬ ∃ x, In x queryset ∧ slug_of x = v.
Proof.
  induction data as [|item rest IH]; simpl; [discriminate|].
  destruct (SlugRelatedField_to_internal_value _ _ item) as [x| |] eqn:Hx;
    try discriminate.
  - destruct (ManyRelatedField_to_internal_value _ _ rest) as [xs'| |];
      try discriminate.
    intros [= <-]. destruct (IH eq_refl) as [? ?]. auto.
  - intros [= <-]. apply SlugRelatedField_does_not_exist in Hx as [-> ?]. auto.
Qed.

Lemma ManyRelatedField_round_trip {A} (slug_of : A → string) queryset xs :
  NoDup (slug_of <$> queryset) → (∀ x, In x xs → In x queryset) →
  ManyRelatedField_to_internal_value slug_of queryset (slug_of <$> xs)
  = Resolved xs.
Proof.
  intros Hnd. induction xs as [|x xs IH]; intros Hall; [done|].
  rewrite fmap_cons. simpl.
  rewrite (SlugRelatedField_round_trip slug_of queryset x Hnd) by (apply Hall; by left).
  rewrite IH; [done|]. intros y Hy. apply Hall. by right.
Qed.

(** X8. The [genre] field of a Title write resolves a list of slugs item
    by item: a resolved list has one Genre of the table for every slug, in
    the order given, each carrying its slug; [does_not_exist] names a slug
    of the input that no Genre carries; the empty list resolves to the
    empty list; and when the slugs of the table are pairwise distinct, the
    slugs of any Genres of the table resolve back to these Genres. *)
Theorem TitleWriteSerializer_genre_resolves (Genre_objects : list Genre)
    (data : list string) :
  (∀ gs, genre_to_internal_value Genre_objects data = Resolved gs →
         genre_slug <$> gs = data ∧ ∀ g, In g gs → In g Genre_objects)
  ∧ (∀ v, genre_to_internal_value Genre_objects data = does_not_exist v →
          In v data ∧ ¬ ∃ g, In g Genre_objects ∧ genre_slug g = v)
  ∧ genre_to_internal_value Genre_objects [] = Resolved []
  ∧ (NoDup (genre_slug <$> Genre_objects) →
     ∀ gs, (∀ g, In g gs → In g Genre_objects) →
           genre_to_internal_value Genre_objects (genre_slug <$> gs) = Resolved gs).
Proof.
  unfold genre_to_internal_value. repeat split.
  - by apply ManyRelatedField_Resolved in H as [? ?].
  - apply ManyRelatedField_Resolved in H as [? Hall]. apply Hall.
  - by apply ManyRelatedField_does_not_exist in H as [? ?].
  - by apply ManyRelatedField_does_not_exist in H as [? ?].
  - intros Hnd gs. by apply ManyRelatedField_round_trip.
Qed.

End GenreField.

Section YearProperties.
Import Models Http Effects Serializers.
Import TitleWriteSerializer.

Lemma TitleWriteSerializer_validate_year_passes now_year self value :
  outcome (validate_year now_year self value) = inr value ↔ (value ≤ now_year)%Z.
Proof.
  unfold validate_year. run. destruct (value >? now_year) eqn:E.
  - apply Z.gtb_gt in E. split; [discriminate | lia].
  - rewrite Z.gtb_ltb in E. apply Z.ltb_ge in E. done.
Qed.

(** X9. Year validation only loosens as time passes: a year that passes
    when the current year is [now_year] passes in every later year. *)
Theorem TitleWriteSerializer_validate_year_monotone now_year later self value :
  (now_year ≤ later)%Z →
  outcome (validate_year now_year self value) = inr value →
  outcome (validate_year later self value) = inr value.
Proof.
  intros Hle. rewrite !TitleWriteSerializer_validate_year_passes. lia.
Qed.

End YearProperties.

(** ** Validation of a Review *)

Section ReviewValidation.
Import Models Http Effects Serializers Spec Writes.
Import ReviewSerializer.

Lemma ReviewSerializer_validate_run {V} db self (data : gmap string V) :
  validate db self data =
    match head (filter (λ t, Some (title_pk t) = path_title_id self)
                       (Title_objects db)) with
    | None => (inl Http404, [Title_by_pk (path_title_id self)])
    | Some t =>
        if String.eqb (method (request (context self))) "POST" then
          (if exists_ (filter (λ r, review_title r = title_pk t
                                    ∧ Some (review_author r)
                                      = user_pk (requester self))
                              (Review_objects db))
           then inl (ValidationError "Больше одного отзыва на title писать нельзя")
           else inr data,
           [Title_by_pk (path_title_id self);
            Review_by_title_author (title_pk t) (user_pk (requester self))])
        else (inr data, [Title_by_pk (path_title_id self)])
    end.
Proof.
  rewrite (outcome_queries (validate db self data)).
  unfold validate, path_title_id, requester. run.
  rewrite get_Title_or_404_outcome, get_Title_or_404_queries.
  destruct (head _) as [t|]; [|done]. run.
  destruct (String.eqb _ "POST"); unfold Review_filter_exists; simpl; run.
  - by destruct (exists_ _).
  - done.
Qed.

Lemma head_title_pk db pk t :
  head (filter (λ t, Some (title_pk t) = pk) (Title_objects db)) = Some t →
  pk = Some (title_pk t) ∧ title_exists db pk.
Proof.
  intros [Hin Hpk]%head_filter_Some. split; [done|]. by exists t.
Qed.

(** X10. The outcome of Review validation in full: it is the not-found
    error exactly when the path names no Title; it is the ValidationError
    of the duplicate check exactly when the path names a Title, the
    request is a POST and the sender has already reviewed that Title; and
    it is the data otherwise, so a request with another method is never
    refused as a duplicate. *)
Theorem ReviewSerializer_validate_outcome {V} db self (data : gmap string V) :
  (outcome (validate db self data) = inl Http404
   ↔ ¬ title_exists db (path_title_id self))
  ∧ (outcome (validate db self data)
     = inl (ValidationError "Больше одного отзыва на title писать нельзя")
     ↔ ∃ title, path_title_id self = Some title
                ∧ title_exists db (Some title)
                ∧ is_create self
                ∧ reviewed_by db title (requester self))
  ∧ (outcome (validate db self data) = inr data
     ↔ ∃ title, path_title_id self = Some title
                ∧ title_exists db (Some title)
                ∧ (is_create self → ¬ reviewed_by db title (requester self))).
Proof.
  rewrite ReviewSerializer_validate_run. unfold is_create, reviewed_by.
  destruct (head _) as [t|] eqn:Hhead.
  - apply head_title_pk in Hhead as [Hid Hex]. rewrite Hid in Hex |- *.
    destruct (String.eqb_spec (method (request (context self))) "POST")
      as [Hpost|Hother]; simpl.
    + destruct (exists_ _) eqn:Hdup.
      * apply exists__filter in Hdup. repeat split; try discriminate; eauto 10.
        -- by intros ?.
        -- intros (title & [= <-] & _ & Hnew). by destruct Hnew.
      * apply exists__filter_false in Hdup.
        repeat split; try discriminate; eauto 10.
        -- by intros ?.
        -- intros (title & [= <-] & _ & _ & ?). done.
    + repeat split; try discriminate; eauto 10.
      * by intros ?.
      * intros (title & _ & _ & ? & _). done.
  - apply head_filter_None in Hhead. unfold title_exists at 1. simpl.
    repeat split; try discriminate; try done.
    + intros (title & Hid & Hex & _). rewrite Hid in Hhead. done.
    + intros (title & Hid & Hex & _). rewrite Hid in Hhead. done.
Qed.

(** X11. Review validation consults the Reviews exactly on a POST for a
    Title that exists, after the lookup of the Title; in every other case
    the lookup of the Title is the only query. *)
Theorem ReviewSerializer_validate_queries {V} db self (data : gmap string V) :
  (is_create self → title_exists db (path_title_id self) →
     ∃ title, path_title_id self = Some title
              ∧ queries (validate db self data)
                = [Title_by_pk (Some title);
                   Review_by_title_author title (user_pk (requester self))])
  ∧ (¬ (is_create self ∧ title_exists db (path_title_id self)) →
       queries (validate db self data) = [Title_by_pk (path_title_id self)]).
Proof.
  rewrite ReviewSerializer_validate_run. unfold is_create.
  destruct (head _) as [t|] eqn:Hhead.
  - apply head_title_pk in Hhead as [Hid Hex].
    destruct (String.eqb_spec (method (request (context self))) "POST")
      as [Hpost|Hother]; simpl.
    + split; [|by intros []]. intros _ _. exists (title_pk t). by rewrite Hid.
    + split; [done|]. by intros _.
  - apply head_filter_None in Hhead. simpl. split; [|done].
    intros _ Hex. by destruct Hhead.
Qed.

(** X12. When the path carries no Title identifier at all, Review
    validation raises the not-found error, whatever the store holds and
    whatever the method. *)
Theorem ReviewSerializer_validate_without_title_id {V} db self
    (data : gmap string V) :
  path_title_id self = None →
  validate db self data = (inl Http404, [Title_by_pk None]).
Proof.
  intros Hid. rewrite ReviewSerializer_validate_run, Hid.
  destruct (head _) as [t|] eqn:Hhead; [|done].
  by apply head_filter_Some in Hhead as [_ ?].
Qed.

(** X13. The duplicate check keeps one Review per Title and author: when
    a POST passes validation for a Title and an identified sender, saving
    a Review of that Title by that sender leaves no two Reviews of the
    store with the same Title and author, and the same POST is refused
    from then on. *)
Theorem ReviewSerializer_validate_keeps_one_review_per_author {V}
    db self (data : gmap string V) (new : Review) :
  is_create self →
  path_title_id self = Some (review_title new) →
  user_pk (requester self) = Some (review_author new) →
  outcome (validate db self data) = inr data →
  NoDup ((λ r, (review_title r, review_author r)) <$> Review_objects db) →
    NoDup ((λ r, (review_title r, review_author r))
             <$> Review_objects (create_Review db new))
    ∧ outcome (validate (create_Review db new) self data)
      = inl (ValidationError "Больше одного отзыва на title писать нельзя").
Proof.
  unfold is_create. intros Hpost Hid Hwho.
  rewrite !ReviewSerializer_validate_run. simpl Title_objects.
  destruct (head _) as [t|] eqn:Hhead; [|discriminate].
  apply head_title_pk in Hhead as [Hpk _].
  rewrite Hid in Hpk. injection Hpk as Hpk.
  rewrite Hpost, Hwho, <- Hpk. simpl.
  destruct (exists_ (filter _ (Review_objects db))) eqn:Hdup; [discriminate|].
  intros _ Hnd. apply exists__filter_false in Hdup. split.
  - rewrite fmap_app. apply NoDup_app. split; [done|]. split.
    + intros p Hp Hx. apply list_elem_of_fmap in Hp as (r & -> & Hr).
      apply list_elem_of_In in Hr. simpl in Hx.
      apply list_elem_of_singleton in Hx. injection Hx as Ht Ha.
      apply Hdup. exists r. by rewrite Ht, Ha.
    + simpl. apply NoDup_singleton.
  - assert (Hnew : ∃ r, In r (Review_objects db ++ [new])
                        ∧ review_title r = review_title new
                          ∧ Some (review_author r) = Some (review_author new)).
    { exists new. split; [|done]. apply in_or_app. right. by left. }
    apply (proj2 (exists__filter _ _)) in Hnew. by rewrite Hnew.
Qed.

(** X14. A validator never changes what it validates: whenever one of the
    five validators returns, it returns the value or the data it was
    given. *)
Theorem validators_return_their_input db now_year :
  (∀ self (data data' : gmap string string),
     outcome (CreateUserSerializer.validate db self data) = inr data' →
     data' = data)
  ∧ (∀ self value value',
       outcome (CategorySerializer.validate_slug db self value) = inr value' →
       value' = value)
  ∧ (∀ self value value',
       outcome (TitleWriteSerializer.validate_year now_year self value) = inr value' →
       value' = value)
  ∧ (∀ self value value',
       outcome (validate_score self value) = inr value' → value' = value)
  ∧ (∀ V self (data data' : gmap string V),
       outcome (validate db self data) = inr data' → data' = data).
Proof.
  repeat split.
  - intros self data data'. rewrite CreateUserSerializer_validate_outcome.
    repeat case_match; congruence.
  - intros self value value'. rewrite CategorySerializer_validate_slug_outcome.
    case_match; congruence.
  - intros self value value'. unfold TitleWriteSerializer.validate_year. run.
    case_match; simpl; congruence.
  - intros self value value'.
    rewrite ReviewSerializer_validate_score_never_raises. congruence.
  - intros V self data data'. rewrite ReviewSerializer_validate_run.
    repeat case_match; simpl; congruence.
Qed.

End ReviewValidation.

(** ** Fields that are never read from the input *)

Section ReadOnlyFields.
Import SerializerFields.

Lemma elem_of_writable_fields cls model_fields not_editable name :
  name ∈ writable_fields cls model_fields not_editable
  ↔ name ∈ field_names cls model_fields
    ∧ is_read_only cls not_editable name = false.
Proof.
  unfold writable_fields. rewrite !list_elem_of_In, filter_In.
  by rewrite negb_true_iff.
Qed.

Lemma read_input_lookup {V} cls model_fields not_editable
    (data : gmap string V) name :
  read_input cls model_fields not_editable data !! name
  = if decide (name ∈ writable_fields cls model_fields not_editable)
    then data !! name else None.
Proof.
  unfold read_input. case_decide as Hw.
  - destruct (data !! name) as [v|] eqn:Hv.
    + by apply map_lookup_filter_Some.
    + apply map_lookup_filter_None. by left.
  - apply map_lookup_filter_None. right. intros v _. done.
Qed.

Lemma read_input_read_only {V} cls model_fields not_editable
    (data : gmap string V) name :
  is_read_only cls not_editable name = true →
  read_input cls model_fields not_editable data !! name = None
  ∧ ∀ v, read_input cls model_fields not_editable (<[name := v]> data)
         = read_input cls model_fields not_editable data.
Proof.
  intros Hro.
  assert (Hw : name ∉ writable_fields cls model_fields not_editable).
  { rewrite elem_of_writable_fields. intros [_ ?]. congruence. }
  split.
  - rewrite read_input_lookup. by rewrite decide_False.
  - intros v. apply map_eq. intros k. rewrite !read_input_lookup.
    case_decide as Hk; [|done].
    rewrite lookup_insert_ne; [done|]. by intros <-.
Qed.

(** X15. A user who edits their own account cannot set the role:
    [SelfEditSerializer] never reads the key [role] from its input, an
    input that differs only in [role] is read alike, and what it reads is
    what [UserSerialiser] reads with [role] taken out. *)
Theorem SelfEditSerializer_never_reads_role {V} model_fields not_editable
    (data : gmap string V) :
  read_input SelfEditSerializer model_fields not_editable data !! "role" = None
  ∧ (∀ role,
       read_input SelfEditSerializer model_fields not_editable
                  (<["role" := role]> data)
       = read_input SelfEditSerializer model_fields not_editable data)
  ∧ read_input SelfEditSerializer model_fields not_editable data
    = delete "role" (read_input UserSerialiser model_fields not_editable data).
Proof.
  destruct (read_input_read_only SelfEditSerializer model_fields not_editable
              data "role" eq_refl) as [Hnone Hsame].
  split; [done|]. split; [done|].
  apply map_eq. intros k. destruct (decide (k = "role")) as [->|Hk].
  - by rewrite Hnone, lookup_delete_eq.
  - rewrite lookup_delete_ne by done. rewrite !read_input_lookup.
    assert (Hiff : k ∈ writable_fields SelfEditSerializer model_fields not_editable
                   ↔ k ∈ writable_fields UserSerialiser model_fields not_editable).
    { rewrite !elem_of_writable_fields. unfold is_read_only. simpl.
      assert (String.eqb k "role" = false) as -> by by apply String.eqb_neq.
      done. }
    repeat case_decide; tauto.
Qed.

(** X16. The author of a Review or a Comment and the Title or Review it
    belongs to are never taken from the client: whatever the fields of the
    models, [ReviewSerializer] reads neither [title] nor [author] from its
    input and [CommentSerializer] neither [review] nor [author], and
    supplying them changes nothing of what is read. *)
Theorem derived_fields_are_never_read {V} model_fields not_editable
    (data : gmap string V) :
  (∀ name, name = "title" ∨ name = "author" →
     read_input ReviewSerializer model_fields not_editable data !! name = None
     ∧ ∀ v, read_input ReviewSerializer model_fields not_editable
                       (<[name := v]> data)
            = read_input ReviewSerializer model_fields not_editable data)
  ∧ (∀ name, name = "review" ∨ name = "author" →
       read_input CommentSerializer model_fields not_editable data !! name = None
       ∧ ∀ v, read_input CommentSerializer model_fields not_editable
                         (<[name := v]> data)
              = read_input CommentSerializer model_fields not_editable data).
Proof.
  split; intros name [-> | ->]; by apply read_input_read_only.
Qed.

End ReadOnlyFields.

(** ** More on the Title filter *)

Section TitleFilterRun.
Import Models Filters Spec FilterVocabulary.

Lemma clean_CharFilter_text_value raw :
  clean CharFilter raw = Some (text_value raw).
Proof. apply clean_CharFilter. Qed.

Lemma TitleFilter_qs_run (data : gmap string string) queryset :
  TitleFilter.qs data queryset =
    match clean NumberFilter (data !! "year") with
    | Some year_value => filter_queryset (cleaned data year_value) queryset
    | None => inl (Invalid "year")
    end.
Proof.
  unfold TitleFilter.qs, FilterSet_qs. rewrite TitleFilter_filters.
  cbn [full_clean].
  change (class TitleFilter.name) with CharFilter.
  change (class TitleFilter.year) with NumberFilter.
  change (class TitleFilter.category) with CharFilter.
  change (class TitleFilter.genre) with CharFilter.
  change (class description_filter) with CharFilter.
  rewrite !clean_CharFilter_text_value.
  by destruct (clean NumberFilter _).
Qed.

Lemma TitleFilter_qs_clean_ext (data data' : gmap string string) queryset :
  (∀ c name, clean c (data !! name) = clean c (data' !! name)) →
  TitleFilter.qs data queryset = TitleFilter.qs data' queryset.
Proof.
  intros H. rewrite !TitleFilter_qs_run. unfold cleaned.
  rewrite (H NumberFilter "year").
  assert (Ht : ∀ name, text_value (data !! name) = text_value (data' !! name)).
  { intros name. pose proof (H CharFilter name) as Hc.
    rewrite !clean_CharFilter_text_value in Hc. by injection Hc. }
  by rewrite !Ht.
Qed.

(** X17. A parameter that is present with an empty text acts as if it
    were absent: the selection is the one obtained without it. *)
Theorem TitleFilter_empty_parameter_is_absent (data : gmap string string)
    (name : string) queryset :
  TitleFilter.qs (<[name := ""]> data) queryset
  = TitleFilter.qs (delete name data) queryset.
Proof.
  apply TitleFilter_qs_clean_ext. intros c k.
  destruct (decide (name = k)) as [->|Hk].
  - by rewrite lookup_insert_eq, lookup_delete_eq.
  - by rewrite lookup_insert_ne, lookup_delete_ne.
Qed.

Lemma lower_string_empty s : lower_string s = "" ↔ s = "".
Proof. by destruct s. Qed.

Lemma QuerySet_filter_ext values l v v' (qs : list Title) :
  (∀ c, lookup_holds l v c = lookup_holds l v' c) →
  QuerySet_filter values l v qs = QuerySet_filter values l v' qs.
Proof.
  intros H. unfold QuerySet_filter. induction qs as [|t qs IH]; [done|].
  simpl. by rewrite IH, (filter_ext _ _ H).
Qed.

(** X18. The [name] parameter is read without regard to letter case: two
    texts that agree once lower-cased select the same Titles. *)
Theorem TitleFilter_name_ignores_case (data : gmap string string)
    (text text' : string) queryset :
  lower_string text = lower_string text' →
  TitleFilter.qs (<["name" := text]> data) queryset
  = TitleFilter.qs (<["name" := text']> data) queryset.
Proof.
  intros Hlow. rewrite !TitleFilter_qs_run.
  rewrite !lookup_insert_ne by done.
  destruct (clean NumberFilter _) as [y|]; [|done]. unfold cleaned.
  rewrite !lookup_insert_eq, !lookup_insert_ne by done.
  cbn [filter_queryset text_value].
  destruct (String.eqb_spec text "") as [->|Hne];
    destruct (String.eqb_spec text' "") as [->|Hne'].
  - done.
  - simpl in Hlow. symmetry in Hlow.
    by apply (proj1 (lower_string_empty _)) in Hlow.
  - simpl in Hlow. by apply (proj1 (lower_string_empty _)) in Hlow.
  - unfold Filter_filter at 1 6. change (field_name TitleFilter.name) with "name".
    destruct (Title_path "name") as [values|]; [|done].
    rewrite (QuerySet_filter_ext _ _ (Str text) (Str text')); [done|].
    intros [f|n]; simpl; [by rewrite Hlow | done].
Qed.

End TitleFilterRun.

Section TitleFilterSelection.
Import Models Filters Spec FilterVocabulary.

Lemma passes_description v t :
  passes description_filter (Str v) t ↔ described_as v t.
Proof.
  unfold passes, described_as. simpl. split.
  - intros (values & c & [= <-] & Hin & Hl).
    destruct (title_description t) as [d|]; simpl in Hin; [|done].
    destruct Hin as [<-|[]]. simpl in Hl. apply String.eqb_eq in Hl. by subst.
  - intros Hd. eexists _, (Str v). split; [done|]. cbn. rewrite Hd.
    split; [by left | apply String.eqb_refl].
Qed.

Lemma clean_NumberFilter_value raw year_value :
  clean NumberFilter raw = Some year_value →
  year_value = None ∨ ∃ n, year_value = Some (Num n).
Proof.
  destruct raw as [s|]; simpl; [|intros [= <-]; by left].
  destruct (String.eqb s ""); [intros [= <-]; by left|].
  destruct (to_number s) as [n|]; simpl; [|done]. intros [= <-]. eauto.
Qed.

Lemma cleaned_paths_resolve data year_value :
  Forall (λ fv, is_Some (Title_path (field_name fv.1))) (cleaned data year_value).
Proof. repeat constructor; by eexists. Qed.

Lemma accepts_text_value f raw t :
  accepts (f, text_value raw) t ↔ ∀ v, supplied raw v → passes f (Str v) t.
Proof. apply accepts_CharFilter. Qed.

Lemma cleaned_accepts data raw year_value t :
  clean NumberFilter raw = Some year_value →
  Forall (λ fv, accepts fv t) (cleaned data year_value)
  ↔ satisfies data year_value t.
Proof.
  intros Hy. unfold cleaned, satisfies.
  rewrite !Forall_cons, Forall_nil, !accepts_text_value.
  setoid_rewrite passes_category. setoid_rewrite passes_genre.
  setoid_rewrite passes_name. setoid_rewrite passes_description.
  assert (Hyear : accepts (TitleFilter.year, year_value) t
                  ↔ ∀ y, year_value = Some (Num y) → title_year t = y).
  { unfold accepts. simpl.
    destruct (clean_NumberFilter_value _ _ Hy) as [-> | [n ->]].
    - split; [by intros _ ? [=] | done].
    - rewrite passes_year. split; [by intros <- ? [= <-] | eauto]. }
  rewrite Hyear. tauto.
Qed.

Lemma TitleFilter_qs_In (data : gmap string string) year_value :
  clean NumberFilter (data !! "year") = Some year_value →
  ∀ queryset, ∃ selected,
    TitleFilter.qs data queryset = inr selected
    ∧ ∀ t, In t selected ↔ In t queryset ∧ satisfies data year_value t.
Proof.
  intros Hy queryset. rewrite TitleFilter_qs_run, Hy.
  destruct (filter_queryset_In (cleaned data year_value)
              (cleaned_paths_resolve data year_value) queryset)
    as (selected & -> & Hsel).
  exists selected. split; [done|]. intros t.
  by rewrite Hsel, (cleaned_accepts data _ year_value t Hy).
Qed.

Lemma TitleFilter_qs_inr (data : gmap string string) queryset selected :
  TitleFilter.qs data queryset = inr selected →
  ∃ year_value, clean NumberFilter (data !! "year") = Some year_value.
Proof.
  rewrite TitleFilter_qs_run. destruct (clean NumberFilter _); [eauto | done].
Qed.


(** X20. Filtering twice is filtering once, and the order of two filters
    does not matter: the Titles selected by [data] from its own selection
    are that selection, and [data'] applied to the selection of [data]
    selects the same Titles as [data] applied to the selection of
    [data']. *)
Theorem TitleFilter_idempotent_and_commutes
    (data data' : gmap string string) queryset selected selected' :
  TitleFilter.qs data queryset = inr selected →
  TitleFilter.qs data' queryset = inr selected' →
  (∃ again, TitleFilter.qs data selected = inr again
            ∧ ∀ t, In t again ↔ In t selected)
  ∧ (∃ both both', TitleFilter.qs data' selected = inr both
                   ∧ TitleFilter.qs data selected' = inr both'
                   ∧ ∀ t, In t both ↔ In t both').
Proof.
  intros Hs Hs'.
  destruct (TitleFilter_qs_inr _ _ _ Hs) as [y Hy].
  destruct (TitleFilter_qs_inr _ _ _ Hs') as [y' Hy'].
  pose proof (TitleFilter_qs_In data y Hy) as Hd.
  pose proof (TitleFilter_qs_In data' y' Hy') as Hd'.
  destruct (Hd queryset) as (s & Hs1 & Hin). rewrite Hs in Hs1.
  injection Hs1 as <-.
  destruct (Hd' queryset) as (s' & Hs1' & Hin'). rewrite Hs' in Hs1'.
  injection Hs1' as <-.
  split.
  - destruct (Hd selected) as (again & -> & Hagain). exists again.
    split; [done|]. intros t. rewrite Hagain, Hin. tauto.
  - destruct (Hd' selected) as (both & -> & Hboth).
    destruct (Hd selected') as (both' & -> & Hboth').
    exists both, both'. split; [done|]. split; [done|]. intros t.
    rewrite Hboth, Hboth', Hin, Hin'. tauto.
Qed.

End TitleFilterSelection.

Section TitleFilterRows.
Import Models Filters Spec FilterVocabulary.

Lemma QuerySet_filter_app values l v (q1 q2 : list Title) :
  QuerySet_filter values l v (q1 ++ q2)
  = (QuerySet_filter values l v q1 ++ QuerySet_filter values l v q2)%list.
Proof. unfold QuerySet_filter. apply flat_map_app. Qed.

Lemma filter_queryset_app cleaned_data (q1 q2 : list Title) :
  filter_queryset cleaned_data (q1 ++ q2) =
    match filter_queryset cleaned_data q1, filter_queryset cleaned_data q2 with
    | inr s1, inr s2 => inr (s1 ++ s2)%list
    | inl e, _ => inl e
    | _, inl e => inl e
    end.
Proof.
  revert q1 q2. induction cleaned_data as [|[f v] rest IH]; intros q1 q2; [done|].
  simpl. unfold Filter_filter. destruct v as [v|]; [|apply IH].
  destruct (Title_path (field_name f)) as [values|]; [|done].
  rewrite QuerySet_filter_app. apply IH.
Qed.

(** X21. The filter judges every Title on its own: the selection from two
    querysets put end to end is the selection from the first followed by
    the selection from the second, and a rejected parameter fails all
    three alike. *)
Theorem TitleFilter_qs_app (data : gmap string string) (q1 q2 : list Title) :
  TitleFilter.qs data (q1 ++ q2) =
    match TitleFilter.qs data q1, TitleFilter.qs data q2 with
    | inr s1, inr s2 => inr (s1 ++ s2)%list
    | inl e, _ => inl e
    | _, inl e => inl e
    end.
Proof.
  rewrite !TitleFilter_qs_run.
  destruct (clean NumberFilter _); [apply filter_queryset_app | done].
Qed.

Lemma filter_length_at_most_one {A} (f : A → bool) (l : list A) :
  (length l ≤ 1)%nat → (length (List.filter f l) ≤ 1)%nat.
Proof.
  destruct l as [|x [|y l]]; simpl; try lia. destruct (f x); simpl; lia.
Qed.

Lemma lookup_holds_exact_eq v c : lookup_holds exact v c = true → c = v.
Proof.
  destruct v, c; simpl; try discriminate.
  - intros H%String.eqb_eq. by subst.
  - intros H%Z.eqb_eq. by subst.
Qed.

Lemma filter_exact_NoDup v (l : list cell) :
  NoDup l → (length (List.filter (lookup_holds exact v) l) ≤ 1)%nat.
Proof.
  induction 1 as [|c l Hc Hnd IH]; cbn [List.filter]; [simpl; lia|].
  destruct (lookup_holds exact v c) eqn:E; [|apply IH].
  apply lookup_holds_exact_eq in E. subst c.
  assert (List.filter (lookup_holds exact v) l = []) as ->; [|simpl; lia].
  destruct (List.filter (lookup_holds exact v) l) as [|d rest] eqn:Hf; [done|].
  assert (Hd : In d (List.filter (lookup_holds exact v) l))
    by (rewrite Hf; by left).
  apply filter_In in Hd as [Hin Hm]. apply lookup_holds_exact_eq in Hm.
  subst d. destruct Hc. by apply list_elem_of_In.
Qed.

Lemma QuerySet_filter_sublist values l v (qs : list Title) :
  (∀ t, In t qs →
        (length (List.filter (lookup_holds l v) (values t)) ≤ 1)%nat) →
  QuerySet_filter values l v qs `sublist_of` qs.
Proof.
  unfold QuerySet_filter. induction qs as [|t qs IH]; intros Hone; [done|].
  simpl. pose proof (Hone t (or_introl eq_refl)) as Ht.
  assert (IH' := IH (λ t' Hin, Hone t' (or_intror Hin))).
  destruct (List.filter (lookup_holds l v) (values t)) as [|c [|d rest]];
    simpl in *; [by apply sublist_cons | by apply sublist_skip | lia].
Qed.

Lemma sublist_In {A} (l1 l2 : list A) x : l1 `sublist_of` l2 → In x l1 → In x l2.
Proof.
  intros Hs Hin. apply list_elem_of_In. apply list_elem_of_In in Hin.
  by eapply elem_of_sublist.
Qed.

Lemma filter_queryset_sublist cleaned_data :
  ∀ qs : list Title,
    (∀ f v values t,
       In (f, Some v) cleaned_data →
       Title_path (field_name f) = Some values → In t qs →
       (length (List.filter (lookup_holds (lookup_expr f) v) (values t)) ≤ 1)%nat) →
    ∀ selected, filter_queryset cleaned_data qs = inr selected →
                selected `sublist_of` qs.
Proof.
  induction cleaned_data as [|[f v] rest IH]; intros qs Hone selected; simpl.
  - by intros [= <-].
  - unfold Filter_filter. destruct v as [v|].
    + destruct (Title_path (field_name f)) as [values|] eqn:Hpath; [|done].
      intros Hsel.
      assert (Hstep : QuerySet_filter values (lookup_expr f) v qs `sublist_of` qs).
      { apply QuerySet_filter_sublist. intros t Ht.
        by apply (Hone f v values t (or_introl eq_refl)). }
      transitivity (QuerySet_filter values (lookup_expr f) v qs); [|done].
      apply IH; [|done]. intros f' v' values' t Hin Hp Ht.
      apply (Hone f' v' values' t); [by right | done |].
      by apply (sublist_In _ _ _ Hstep).
    + apply IH. intros f' v' values' t Hin Hp Ht.
      apply (Hone f' v' values' t); [by right | done | done].
Qed.

Lemma Str_genre_slugs_NoDup (t : Title) :
  NoDup (genre_slug <$> title_genre t) →
  NoDup (Str ∘ genre_slug <$> title_genre t).
Proof.
  intros Hnd. rewrite list_fmap_compose. apply NoDup_fmap_2; [|done].
  by intros ?? [= ?].
Qed.

(** X22. When no Title of the queryset is linked to two genres with the
    same slug, the selection is a sublist of the queryset, with every
    Title in its place and none repeated; so a queryset without repeats
    gives a selection without repeats. *)
Theorem TitleFilter_selection_is_sublist (data : gmap string string)
    queryset selected :
  genre_slugs_distinct queryset →
  TitleFilter.qs data queryset = inr selected →
  selected `sublist_of` queryset ∧ (NoDup queryset → NoDup selected).
Proof.
  intros Hdistinct Hsel.
  assert (Hsub : selected `sublist_of` queryset).
  { rewrite TitleFilter_qs_run in Hsel.
    destruct (clean NumberFilter _) as [y|]; [|done].
    apply (filter_queryset_sublist (cleaned data y)); [|done].
    intros f v values t Hin Hpath Ht. unfold cleaned in Hin. simpl in Hin.
    destruct Hin as [[= <- _]|[[= <- _]|[[= <- _]|[[= <- _]|[[= <- _]|[]]]]]];
      simpl in Hpath; injection Hpath as <-.
    - apply filter_length_at_most_one. simpl. lia.
    - apply filter_length_at_most_one. simpl. lia.
    - apply filter_length_at_most_one.
      destruct (title_description t); simpl; lia.
    - apply filter_length_at_most_one.
      destruct (title_category t); simpl; lia.
    - apply (filter_exact_NoDup v), Str_genre_slugs_NoDup. by apply Hdistinct. }
  split; [done|]. intros Hnd. by eapply sublist_NoDup.
Qed.

End TitleFilterRows.

(** ** The further properties at work on the example store *)

Section MoreInstances.
Import Models Http Effects Serializers Filters Spec Writes.
Import FilterVocabulary Examples MoreExamples.

Lemma CreateUserSerializer_validate_keeps_users_unique_witness :
  NoDup (username <$> User_objects (create_User store carol))
  ∧ outcome (CreateUserSerializer.validate
               (create_User store carol) registration carol_data)
    = inl (serializers_ValidationError "Такой пользователь существует").
Proof.
  assert (Hnames : NoDup (username <$> User_objects store)).
  { apply (bool_decide_unpack _). vm_compute. exact I. }
  assert (Hmails : NoDup (email <$> User_objects store)).
  { apply (bool_decide_unpack _). vm_compute. exact I. }
  pose proof (CreateUserSerializer_validate_keeps_users_unique
                store registration carol_data carol
                eq_refl eq_refl eq_refl Hnames Hmails) as (_ & H1 & _ & H2).
  by split.
Defined.

Lemma CategorySerializer_validate_slug_keeps_slugs_unique_witness :
  NoDup (category_slug <$> Category_objects (create_Category store books))
  ∧ outcome (CategorySerializer.validate_slug
               (create_Category store books) category_create "book")
    = inl (serializers_ValidationError "Категория с таким slug уже существует!").
Proof.
  assert (Hslugs : NoDup (category_slug <$> Category_objects store)).
  { apply (bool_decide_unpack _). vm_compute. exact I. }
  exact (CategorySerializer_validate_slug_keeps_slugs_unique
           store category_create category_create books eq_refl Hslugs).
Defined.

Lemma TitleWriteSerializer_validate_year_monotone_witness :
  outcome (TitleWriteSerializer.validate_year 2030 title_create 2024) = inr 2024.
Proof.
  apply (TitleWriteSerializer_validate_year_monotone 2024 2030 title_create 2024).
  - lia.
  - reflexivity.
Defined.

Lemma ReviewSerializer_validate_without_title_id_witness :
  ReviewSerializer.validate store review_without_title review_data
  = (inl Http404, [Title_by_pk None]).
Proof.
  apply (ReviewSerializer_validate_without_title_id
           store review_without_title review_data).
  reflexivity.
Defined.

Lemma ReviewSerializer_validate_keeps_one_review_per_author_witness :
  NoDup ((λ r, (review_title r, review_author r))
           <$> Review_objects (create_Review store review_of_bob))
  ∧ outcome (ReviewSerializer.validate (create_Review store review_of_bob)
               (review_serializer "POST" bob 1) review_data)
    = inl (ValidationError "Больше одного отзыва на title писать нельзя").
Proof.
  assert (Hone : NoDup ((λ r, (review_title r, review_author r))
                          <$> Review_objects store)).
  { apply (bool_decide_unpack _). vm_compute. exact I. }
  exact (ReviewSerializer_validate_keeps_one_review_per_author
           store (review_serializer "POST" bob 1) review_data review_of_bob
           eq_refl eq_refl eq_refl eq_refl Hone).
Defined.

Lemma TitleFilter_name_ignores_case_witness :
  TitleFilter.qs (<["name" := "Star"]> ∅) [title_A; title_B]
  = TitleFilter.qs (<["name" := "sTAR"]> ∅) [title_A; title_B].
Proof.
  apply (TitleFilter_name_ignores_case ∅ "Star" "sTAR" [title_A; title_B]).
  reflexivity.
Defined.


Lemma TitleFilter_idempotent_and_commutes_witness :
  ∃ both both',
    TitleFilter.qs {[ "year" := "2000" ]} [title_A; title_B] = inr both
    ∧ TitleFilter.qs {[ "category" := "movie" ]} [title_A] = inr both'
    ∧ ∀ t, In t both ↔ In t both'.
Proof.
  apply (TitleFilter_idempotent_and_commutes
           {[ "category" := "movie" ]} {[ "year" := "2000" ]}
           [title_A; title_B] [title_A; title_B] [title_A]).
  - reflexivity.
  - reflexivity.
Defined.

Lemma TitleFilter_selection_is_sublist_witness :
  [title_A] `sublist_of` [title_A; title_B].
Proof.
  apply (TitleFilter_selection_is_sublist
           {[ "genre" := "drama" ]} [title_A; title_B] [title_A]).
  - intros t [<-|[<-|[]]]; simpl; apply NoDup_singleton.
  - reflexivity.
Defined.

End MoreInstances.
